(** * mts_dumper: a 12-tone scale as MIDI Tuning Standard SysEx messages

    A shallow embedding of [mts_dumper.py].  The program is a chain of
    functions over Python lists, integers and floats:

      - [stepwise_from_root]: successive deltas to cents from the root;
      - [offsets_from_another_scale]: per step, the whole-semitone offset and
        the remaining cents against 12-tone equal temperament;
      - [make_mts_tuple]: one note as the three MTS data bytes;
      - [make_mts_messages_per_note_rt]: the tuples of a note range, cut into
        messages;
      - [to_hex], [hex_print_mts_messages]: the hexadecimal dump;
      - [rotate_notes], [ratio_to_float], [ratio_to_cents]: the note names
        and the reading of a step, [float], [/] and [log] being taken as
        they come;
      - [main]: the option handling around them.

    Python integers are [Z].  Python floats are IEEE binary64; the arithmetic
    the program needs is an interface, [Cents], with two instances: exact
    rationals [Q], over which the general statements are proved, and Rocq's
    primitive binary64 floats, on which the code can be run as Python runs it.
    A [while] loop takes a fuel argument and answers [OutOfFuel] when it is
    used up; a raised exception is the outcome [Raise]. *)

From Stdlib Require Import ZArith QArith Qround Lqa List Permutation String Ascii HexString DecimalString Bool Lia Floats.
Import ListNotations.

Open Scope Z_scope.

(** ** Outcomes of a Python call *)

Inductive exc : Type :=
| Exception (msg : string)
| NameError (name : string)
| TypeError
| IndexError
| ValueError.

Inductive outcome (T : Type) : Type :=
| Return (v : T)
| Raise (e : exc)
| OutOfFuel.

Arguments Return {T} v.
Arguments Raise {T} e.
Arguments OutOfFuel {T}.

Definition bind {T U : Type} (m : outcome T) (k : T -> outcome U) : outcome U :=
  match m with
  | Return v => k v
  | Raise e => Raise e
  | OutOfFuel => OutOfFuel
  end.

Notation "x <- m ;; k" := (bind m (fun x => k))
  (at level 61, m at next level, right associativity).

(** ** Python lists *)

Module Py.

Definition len {T : Type} (l : list T) : Z := Z.of_nat (List.length l).

(** [l[i]]: a negative index counts from the end; out of range raises. *)
Definition index {T : Type} (l : list T) (i : Z) : outcome T :=
  let j := if i <? 0 then len l + i else i in
  if j <? 0 then Raise IndexError
  else match nth_error l (Z.to_nat j) with
       | Some v => Return v
       | None => Raise IndexError
       end.

(** The position a slice bound stands for: negative bounds count from the
    end and stop at the start of the list. *)
Definition bound {T : Type} (l : list T) (n : Z) : nat :=
  if n <? 0 then Z.to_nat (len l + n) else Z.to_nat n.

(** [l[:n]] and [l[n:]]. *)
Definition take {T : Type} (n : Z) (l : list T) : list T := firstn (bound l n) l.
Definition drop {T : Type} (n : Z) (l : list T) : list T := skipn (bound l n) l.

(** [range(lo, hi)]. *)
Definition range (lo hi : Z) : list Z :=
  map (fun k => lo + Z.of_nat k) (seq 0 (Z.to_nat (hi - lo))).

(** [l.index(x)] on a list of strings. *)
Fixpoint index_of (x : string) (l : list string) : outcome Z :=
  match l with
  | [] => Raise ValueError
  | y :: l' => if String.eqb y x then Return 0
               else k <- index_of x l' ;; Return (k + 1)
  end.

(** [enumerate(l)], counting from [i]. *)
Fixpoint enumerate_from {T : Type} (i : Z) (l : list T) : list (Z * T) :=
  match l with
  | [] => []
  | x :: l' => (i, x) :: enumerate_from (i + 1) l'
  end.

End Py.

(** ** The arithmetic of cents *)

Class Cents (A : Type) : Type := {
  of_int : Z -> A;                (* an int where a float is expected *)
  fadd : A -> A -> A;
  fsub : A -> A -> A;
  fmul : A -> A -> A;
  fdiv : A -> A -> A;
  fle : A -> A -> bool;
  flt : A -> A -> bool;
  copysign1 : A -> Z;             (* int(math.copysign(1, x)) *)
  ffloor : A -> Z;                (* math.floor(x) *)
  fround : A -> Z                 (* round(x): halves go to the even integer *)
}.

(** Rounding to the nearest integer, halves to the even one. *)
Definition Qround_half_even (x : Q) : Z :=
  let f := Qfloor x in
  match ((x - inject_Z f) ?= (1 # 2))%Q with
  | Lt => f
  | Gt => f + 1
  | Eq => if Z.even f then f else f + 1
  end.

#[export] Instance ExactCents : Cents Q := {
  of_int := inject_Z;
  fadd := Qplus;
  fsub := Qminus;
  fmul := Qmult;
  fdiv := Qdiv;
  fle := Qle_bool;
  flt := fun x y => negb (Qle_bool y x);
  copysign1 := fun x => if Qle_bool 0 x then 1 else -1;
  ffloor := Qfloor;
  fround := Qround_half_even
}.

(** The rational a finite binary64 value stands for. *)
Definition F2Q (x : float) : Q :=
  match Prim2SF x with
  | S754_finite s m e =>
      let v := if s then Z.neg m else Z.pos m in
      if 0 <=? e then inject_Z (v * 2 ^ e)
      else Qmake v (Pos.pow 2 (Z.to_pos (- e)))
  | _ => 0%Q
  end.

(** The sign bit as [copysign(1, x)] reads it (a NaN's sign is not kept by
    [Prim2SF]; it is taken as positive). *)
Definition float_copysign1 (x : float) : Z :=
  match Prim2SF x with
  | S754_zero s | S754_infinity s | S754_finite s _ _ => if s then -1 else 1
  | S754_nan => 1
  end.

#[export] Instance Binary64Cents : Cents float := {
  of_int := fun z => SF2Prim (binary_normalize prec emax z 0 false);
  fadd := PrimFloat.add;
  fsub := PrimFloat.sub;
  fmul := PrimFloat.mul;
  fdiv := PrimFloat.div;
  fle := PrimFloat.leb;
  flt := PrimFloat.ltb;
  copysign1 := float_copysign1;
  ffloor := fun x => Qfloor (F2Q x);
  fround := fun x => Qround_half_even (F2Q x)
}.

(** ** The program *)

Section Program.

Context {A : Type} `{Cents A}.

Definition eqtemp12_cents : list A :=
  map of_int [0; 100; 200; 300; 400; 500; 600; 700; 800; 900; 1000; 1100].
Definition midi_note_range : Z * Z := (0, 127).
Definition midi_max_cents_offset : A := of_int 100.
Definition cents_in_octave : A := of_int 1200.

(** *** stepwise_from_root *)

Fixpoint stepwise_for (new_scale : list (option A)) (rest : list (option A))
  : outcome (list (option A)) :=
  match rest with
  | [] => Return new_scale
  | Some note :: rest' =>
      prev <- Py.index new_scale (-1) ;;
      match prev with
      | Some p => stepwise_for (new_scale ++ [Some (fadd p note)]) rest'
      | None => Raise TypeError                 (* None + float *)
      end
  | None :: _ => Raise (NameError "new_scape")  (* the name is not bound *)
  end.

Definition stepwise_from_root (scale : list (option A)) : outcome (list (option A)) :=
  first <- Py.index scale 0 ;;
  stepwise_for [first] (Py.drop 1 scale).

(** *** offsets_from_another_scale *)

(** The variables the [while] loop updates. *)
Record resolver : Type := mkResolver {
  cur_step : Z;
  cur_note : A;
  steps_offset : Z;
  cents_offset : A
}.

(** [0 <= cents_offset < midi_max_cents_offset] *)
Definition in_semitone (d : A) : bool :=
  fle (of_int 0) d && flt d midi_max_cents_offset.

(** One pass through the body of the [while] loop. *)
Definition resolve_body (base_scale : list A) (st : resolver) : outcome resolver :=
  let sign := copysign1 (cents_offset st) in
  let step1 := cur_step st + sign in
  let steps := steps_offset st + sign in
  let wrap := negb ((0 <=? step1) && (step1 <? Py.len base_scale)) in
  let step2 := if wrap then step1 - sign * Py.len base_scale else step1 in
  let note2 := if wrap then fsub (cur_note st) (fmul (of_int sign) cents_in_octave)
               else cur_note st in
  base <- Py.index base_scale step2 ;;
  Return (mkResolver step2 note2 steps (fsub note2 base)).

Fixpoint resolve_while (fuel : nat) (base_scale : list A) (st : resolver)
  : outcome resolver :=
  if in_semitone (cents_offset st) then Return st
  else match fuel with
       | O => OutOfFuel
       | S fuel' =>
           st' <- resolve_body base_scale st ;;
           resolve_while fuel' base_scale st'
       end.

(** The work on one step of the scale: the loop from its initial state. *)
Definition resolve (fuel : nat) (base_scale : list A) (step : Z) (note base : A)
  : outcome resolver :=
  resolve_while fuel base_scale (mkResolver step note 0 (fsub note base)).

(** An entry of the offsets table: [(None, None)] is [None] here. *)
Definition offset : Type := option (Z * A).

Fixpoint offsets_for (fuel : nat) (base_scale : list A)
         (steps : list (Z * (option A * A))) : outcome (list offset) :=
  match steps with
  | [] => Return []
  | (_, (None, _)) :: steps' =>
      offsets <- offsets_for fuel base_scale steps' ;;
      Return (None :: offsets)
  | (step, (Some note, base)) :: steps' =>
      st <- resolve fuel base_scale step note base ;;
      offsets <- offsets_for fuel base_scale steps' ;;
      Return (Some (steps_offset st, cents_offset st) :: offsets)
  end.

Definition offsets_from_another_scale (fuel : nat) (scale : list (option A))
           (base_scale : list A) : outcome (list offset) :=
  offsets_for fuel base_scale (Py.enumerate_from 0 (combine scale base_scale)).

(** *** make_mts_tuple *)

Definition is_data_byte (cur : Z) : bool := (0 <=? cur) && (cur <=? 127).

Definition make_mts_tuple (note_id step_offset : Z) (cents_offset : A)
  : outcome (Z * Z * Z) :=
  let semitone := note_id + step_offset in
  if negb ((fst midi_note_range <=? semitone) && (semitone <=? snd midi_note_range))
  then Raise (Exception "semitone not in range")
  else if negb (in_semitone cents_offset)
  then Raise (Exception "cents offset not in range")
  else
    let cents_to_midi_ratio := fdiv (of_int (2 ^ 7)) midi_max_cents_offset in
    let midi_offset := fmul cents_offset cents_to_midi_ratio in
    let msb := ffloor midi_offset in
    let lsb := fround (fmul (fsub midi_offset (of_int msb)) (of_int (2 ^ 7))) in
    if negb (forallb is_data_byte [semitone; msb; lsb])
    then Raise (Exception "internal error: tuning offset data exceeded maximum MIDI value")
    else Return (semitone, msb, lsb).

(** *** make_mts_messages_per_note_rt *)

Record reference_note : Type := mkReference {
  ID : Z;
  note : string;
  octave : Z
}.

Definition tuning_tuple : Type := (Z * Z * Z * Z)%type.

(** The seven entries of the list the batcher builds for one message. *)
Record message : Type := mkMessage {
  header : Z * Z;
  device : Z;
  sub_ids : Z * Z;
  program : Z;
  count : Z;
  tuples : list tuning_tuple;
  eom : Z
}.

(** The [for] loop over the note ids.  A failure of [make_mts_tuple] is
    caught and the note is left out; the table lookup is outside the [try]. *)
Fixpoint tuples_for (offsets : list offset) (starting_step modulus : Z)
         (note_ids : list Z) : outcome (list tuning_tuple) :=
  match note_ids with
  | [] => Return []
  | note_id :: note_ids' =>
      entry <- Py.index offsets ((note_id + starting_step) mod modulus) ;;
      match entry with
      | None => tuples_for offsets starting_step modulus note_ids'
      | Some (step_offset, cents_offset) =>
          match make_mts_tuple note_id step_offset cents_offset with
          | Return (semitone, msb, lsb) =>
              rest <- tuples_for offsets starting_step modulus note_ids' ;;
              Return ((note_id, semitone, msb, lsb) :: rest)
          | _ => tuples_for offsets starting_step modulus note_ids'
          end
      end
  end.

(** The [while] loop that cuts the tuples into messages. *)
Fixpoint messages_while (fuel : nat) (device_id tuning_program notes_per_message : Z)
         (tuning_tuples : list tuning_tuple) (messages : list message)
  : outcome (list message) :=
  match tuning_tuples with
  | [] => Return messages
  | _ :: _ =>
      match fuel with
      | O => OutOfFuel
      | S fuel' =>
          let buffer := Py.take notes_per_message tuning_tuples in
          let rest := Py.drop notes_per_message tuning_tuples in
          let msg := mkMessage (240, 127) device_id (8, 2) tuning_program
                               (Py.len buffer) buffer 247 in
          messages_while fuel' device_id tuning_program notes_per_message
                         rest (messages ++ [msg])
      end
  end.

(** The first half of the batcher: the tuples of the notes of the range. *)
Definition tuning_tuples_of (notes : list string) (offsets : list offset)
           (midi_reference_note : reference_note) (tuning_range : list Z)
  : outcome (list tuning_tuple) :=
  k <- Py.index_of (note midi_reference_note) notes ;;
  let ref_note_id := ID midi_reference_note + k in
  let starting_step := ref_note_id mod Py.len notes in
  bottom <- Py.index tuning_range 0 ;;
  top <- Py.index tuning_range 1 ;;
  tuples_for offsets starting_step (Py.len notes) (Py.range bottom (top + 1)).

Definition make_mts_messages_per_note_rt (fuel : nat) (notes : list string)
           (offsets : list offset) (midi_reference_note : reference_note)
           (note_range : Z * Z) (device_id tuning_program : Z)
           (tuning_range : list Z) (notes_per_message : Z)
  : outcome (list message) :=
  tuning_tuples <- tuning_tuples_of notes offsets midi_reference_note tuning_range ;;
  if Py.len tuning_tuples >? 127
  then Raise (Exception "Too many notes to tune in one message.")
  else messages_while fuel device_id tuning_program notes_per_message
                      tuning_tuples [].

End Program.

(** ** The hexadecimal dump *)

Definition upper_ascii (c : ascii) : ascii :=
  let n := nat_of_ascii c in
  if ((97 <=? n) && (n <=? 122))%nat then ascii_of_nat (n - 32) else c.

(** [s.upper()] *)
Fixpoint upper (s : string) : string :=
  match s with
  | EmptyString => EmptyString
  | String c s' => String (upper_ascii c) (upper s')
  end.

(** [s.split("0x")]; [cur] is the piece read so far, last character first. *)
Fixpoint split_0x (s : string) (cur : list ascii) : list string :=
  match s with
  | EmptyString => [string_of_list_ascii (rev cur)]
  | String "0" (String "x" s') => string_of_list_ascii (rev cur) :: split_0x s' []
  | String c s' => split_0x s' (c :: cur)
  end.

(** [textwrap.wrap(s, 2)] on a word without blanks: pieces of two
    characters, a last one of one character when the length is odd. *)
Fixpoint wrap2 (s : string) : list string :=
  match s with
  | EmptyString => []
  | String a EmptyString => [String a EmptyString]
  | String a (String b s') => String a (String b EmptyString) :: wrap2 s'
  end.

(** ["0"*(len(stnum)%2) + stnum.upper()] *)
Definition pad_upper (stnum : string) : string :=
  ((if Nat.eqb (Nat.modulo (String.length stnum) 2) 1 then "0" else "") ++ upper stnum)%string.

Definition to_hex (number : Z) : string :=
  String.concat " "
    (wrap2 (last (map pad_upper (split_0x (HexString.of_Z number) [])) ""%string)).

Definition hex_row (row : tuning_tuple) : string :=
  let '(note_id, semitone, msb, lsb) := row in
  String.concat " " (map to_hex [note_id; semitone; msb; lsb]).

Definition hex_print_message (delimiter : string) (m : message) : string :=
  String.concat delimiter
    [ String.concat " " (map to_hex [fst (header m); snd (header m)]);
      to_hex (device m);
      String.concat " " (map to_hex [fst (sub_ids m); snd (sub_ids m)]);
      to_hex (program m);
      to_hex (count m);
      String.concat delimiter (map hex_row (tuples m));
      to_hex (eom m) ].

(** Both values of [pretty_print] take the same branch. *)
Definition hex_print_mts_messages (messages : list message) (pretty_print : bool)
           (message_type : string) (delimiter : string) : string :=
  let newline := String (ascii_of_nat 10) EmptyString in
  String.concat (newline ++ newline)
    (if String.eqb message_type "per_note_rt"
     then map (hex_print_message delimiter) messages
     else []).

(** ** main *)

Section Main.

Context {A : Type} `{Cents A}.

Definition notes : list string :=
  ["C"; "C#"; "D"; "D#"; "E"; "F"; "F#"; "G"; "G#"; "A"; "A#"; "B"]%string.

Definition midi_reference_note : reference_note := mkReference 60 "C" 4.

Definition bytes_header : Z := 8.
Definition bytes_per_note : Z := 4.

Definition rotate_notes (names : list string) (starting_note : string)
  : outcome (list string) :=
  i <- Py.index_of (upper starting_note) names ;;
  Return (Py.drop i names ++ Py.take i names).

(** The parsed command line.  [scale] is the twelve steps in cents, as they
    stand once [ratio_to_float] and, for ratios, [ratio_to_cents] have been
    applied; [x] is [None]. *)
Record arguments : Type := mkArguments {
  scale : list (option A);
  starting_note : string;
  from_each_other : bool;
  device_id : Z;
  tuning_bank : Z;
  pretty_print : bool;
  tuning_range : option (Z * Z);
  notes_per_message : Z;
  bytes_per_message : option Z
}.

(** [main] up to the call of the batcher: the messages it obtains.  The
    diagnostic printing of cents is left out. *)
Definition main_messages (fuel : nat) (args : arguments) : outcome (list message) :=
  let range := match tuning_range args with
               | None => [0; 127]
               | Some (bottom, top) => [bottom; top]
               end in
  if Py.len range >? notes_per_message args
  then Raise (Exception "Too many notes per message for a given range. Try decreasing.")
  else
    names <- rotate_notes notes (starting_note args) ;;
    cents <- (if from_each_other args then stepwise_from_root (scale args)
              else Return (scale args)) ;;
    offsets <- offsets_from_another_scale fuel cents eqtemp12_cents ;;
    let per_message := match bytes_per_message args with
                       | Some b => (b - bytes_header) / bytes_per_note
                       | None => notes_per_message args
                       end in
    make_mts_messages_per_note_rt fuel names offsets midi_reference_note
                                  midi_note_range (device_id args) (tuning_bank args)
                                  range per_message.

(** What [main] prints last: the dump of the messages. *)
Definition main (fuel : nat) (args : arguments) : outcome string :=
  messages <- main_messages fuel args ;;
  Return (if pretty_print args
          then hex_print_mts_messages messages true "per_note_rt"
                                      (String (ascii_of_nat 10) EmptyString)
          else hex_print_mts_messages messages false "per_note_rt" " ").

End Main.

(** ** Vocabulary of the statements *)

(** A computation that runs out of any amount of fuel: it does not end. *)
Definition never_returns {T : Type} (run : nat -> outcome T) : Prop :=
  forall fuel, run fuel = OutOfFuel.

(** The numbers of a message in the order [hex_print_message] writes them. *)
Definition tuple_numbers (row : tuning_tuple) : list Z :=
  let '(note_id, semitone, msb, lsb) := row in [note_id; semitone; msb; lsb].

Definition message_numbers (m : message) : list Z :=
  [fst (header m); snd (header m); device m; fst (sub_ids m); snd (sub_ids m);
   program m; count m] ++ flat_map tuple_numbers (tuples m) ++ [eom m].

(** The message the batcher builds around one buffer of tuples. *)
Definition message_of (device_id tuning_program : Z) (buffer : list tuning_tuple)
  : message :=
  mkMessage (240, 127) device_id (8, 2) tuning_program (Py.len buffer) buffer 247.

(** What the cutting loop has appended when it returns: every message is
    built around a non-empty buffer no longer than the limit. *)
Definition well_cut (dev prog npm most : Z) (m : message) : Prop :=
  m = message_of dev prog (tuples m)
  /\ tuples m <> []
  /\ Py.len (tuples m) <= npm
  /\ Py.len (tuples m) <= most.

(** The sums [stepwise_from_root] appends, starting from the entry [prev]. *)
Fixpoint running_sums {A : Type} `{Cents A} (prev : A) (deltas : list A) : list A :=
  match deltas with
  | [] => []
  | d :: deltas' => fadd prev d :: running_sums (fadd prev d) deltas'
  end.


(** *** The resolver over exact rationals *)

(** What the loop keeps true of its variables, for the note [c] of step [i]:
    the step stays in the table, the offset is the note against that step,
    and the note has moved by whole octaves, one for each wrap of the step. *)
Definition resolver_inv (c : Q) (i : Z) (st : @resolver Q) : Prop :=
  0 <= cur_step st < 12
  /\ (cents_offset st == cur_note st - inject_Z (100 * cur_step st))%Q
  /\ exists k : Z,
       (cur_note st == c - inject_Z (1200 * k))%Q
       /\ cur_step st + 12 * k = i + steps_offset st.

(** The whole semitones between the note [c] and step [i] of the table. *)
Definition semitones_away (c : Q) (i : Z) : Z :=
  Qfloor ((c - inject_Z (100 * i)) / 100).

(** The state the loop ends in for the note [c] of step [i]. *)
Definition resolved (c : Q) (i : Z) (st : @resolver Q) : Prop :=
  (0 <= cents_offset st < 100)%Q
  /\ 0 <= cur_step st < 12
  /\ cur_step st = (i + steps_offset st) mod 12
  /\ exists k : Z,
       (c == inject_Z (100 * cur_step st) + cents_offset st + inject_Z (1200 * k))%Q.


(** The entry of the offsets table for step [i] holding [c]: unset for an
    unset step, and else the pair the loop ends with. *)
Definition resolved_entry (fuel : nat) (i : Z) (c : option Q) (o : @offset Q) : Prop :=
  match c with
  | None => o = None
  | Some c =>
      exists st,
        resolve fuel eqtemp12_cents i c (inject_Z (100 * i)) = Return st
        /\ o = Some (steps_offset st, cents_offset st)
        /\ resolved c i st
  end.

(** The base entries still to be zipped, when the next step is [j]. *)
Definition aligned (j : Z) (l : list Q) : Prop :=
  forall n b, nth_error l n = Some b ->
    b = inject_Z (100 * (j + Z.of_nat n)) /\ 0 <= j + Z.of_nat n < 12.

(** *** The resolver on binary64 *)

(** A finite cents value beyond the reach of the octave steps. *)
Definition huge_cents : float := 1e20%float.


(** *** The encoder *)

(** The cents as a fraction of a semitone in units of 1/128:
    [cents_offset * cents_to_midi_ratio]. *)
Definition midi_fraction {A : Type} `{Cents A} (cents : A) : A :=
  fmul cents (fdiv (of_int 128) midi_max_cents_offset).


(** *** The scenarios *)

(** The steps of equal temperament, in cents, all set. *)
Definition equal_temperament_scale {A : Type} `{Cents A} : list (option A) :=
  map Some eqtemp12_cents.

(** The command line with its defaults, for a scale and a range. *)
Definition default_arguments {A : Type} `{Cents A} (steps : list (option A))
           (range : option (Z * Z)) (per_message : Z) : arguments :=
  mkArguments steps "C" false 127 0 false range per_message None.


(** The offsets of the equal-temperament scale: no step and no cents. *)
Definition equal_temperament_offsets : list (@offset Q) :=
  repeat (Some (0, 0%Q)) 12.


(** *** The batcher's loops, read as filters *)

(** Whether the [for] loop keeps a note: its entry is set and it encodes. *)
Definition encodes {A : Type} `{Cents A} (offsets : list offset)
           (starting_step modulus : Z) (note_id : Z) : bool :=
  match Py.index offsets ((note_id + starting_step) mod modulus) with
  | Return (Some (step_offset, cents_offset)) =>
      match make_mts_tuple note_id step_offset cents_offset with
      | Return _ => true
      | _ => false
      end
  | _ => false
  end.

Definition note_of (row : tuning_tuple) : Z := fst (fst (fst row)).


(** ** ratio_to_float and ratio_to_cents *)

(** [s.replace("/", ":")] *)
Fixpoint replace_slash (s : string) : string :=
  match s with
  | EmptyString => EmptyString
  | String c s' => String (if Ascii.eqb c "/" then ":"%char else c) (replace_slash s')
  end.

(** [s.split(":")]; [cur] is the piece read so far, last character first. *)
Fixpoint split_colon (s : string) (cur : list ascii) : list string :=
  match s with
  | EmptyString => [string_of_list_ascii (rev cur)]
  | String c s' =>
      if Ascii.eqb c ":" then string_of_list_ascii (rev cur) :: split_colon s' []
      else split_colon s' (c :: cur)
  end.

(** A text without [:] and [/]. *)
Fixpoint plain (s : string) : bool :=
  match s with
  | EmptyString => true
  | String c s' => negb (Ascii.eqb c ":") && negb (Ascii.eqb c "/") && plain s'
  end.

Section RatioToFloat.

Context {A : Type} `{Cents A}.

(** Python's [float(s)], [x / y] on floats, which raises on a zero divisor,
    and [math.log(x, 2)] are taken as they come. *)
Variable float_of_string : string -> outcome A.
Variable divide : A -> A -> outcome A.
Variable log2 : A -> outcome A.

Definition ratio_to_float (strrat : string) : outcome (option A) :=
  let nden := split_colon (replace_slash strrat) [] in
  first <- Py.index nden 0 ;;
  if String.eqb first "x" then Return None
  else if Py.len nden =? 1 then
    res <- float_of_string first ;;
    Return (Some res)
  else if Py.len nden =? 2 then
    num <- Py.index nden 0 ;;
    denom <- Py.index nden 1 ;;
    n <- float_of_string num ;;
    d <- float_of_string denom ;;
    res <- divide n d ;;
    Return (Some res)
  else Raise (Exception (strrat ++ " is not a valid number or ratio")).

Definition ratio_to_cents (ratio : option A) : outcome (option A) :=
  match ratio with
  | Some r => l <- log2 r ;; Return (Some (fmul (of_int 1200) l))
  | None => Return None
  end.

End RatioToFloat.


(** *** Stand-ins for the built-ins, to run [ratio_to_float] *)

(** [float(s)] on the numerals without sign, point and exponent. *)
Definition whole_number_of_string (s : string) : outcome Q :=
  match NilEmpty.uint_of_string s with
  | Some Decimal.Nil | None => Raise ValueError
  | Some u => Return (inject_Z (Z.of_uint u))
  end.

(** [x / y] on exact rationals; Python refuses a zero divisor. *)
Definition exact_quotient (x y : Q) : outcome Q :=
  if Qeq_bool y 0 then Raise (Exception "float division by zero")
  else Return (x / y)%Q.

(** The notes turned to start from D. *)
Definition notes_from_d : list string :=
  ["D"; "D#"; "E"; "F"; "F#"; "G"; "G#"; "A"; "A#"; "B"; "C"; "C#"]%string.

(** ** Python lists: facts *)

Module PyFacts.

Lemma len_nonneg {T : Type} (l : list T) : 0 <= Py.len l.
Proof. unfold Py.len. lia. Qed.

Lemma len_app {T : Type} (l l' : list T) : Py.len (l ++ l') = Py.len l + Py.len l'.
Proof. unfold Py.len. rewrite length_app. lia. Qed.

Lemma len_nil_iff {T : Type} (l : list T) : Py.len l = 0 <-> l = [].
Proof.
  unfold Py.len. destruct l; simpl; split; intro E;
    try reflexivity; try discriminate; lia.
Qed.

(** [l[-1]] is the last element. *)
Lemma index_last {T : Type} (l : list T) (x : T) : Py.index (l ++ [x]) (-1) = Return x.
Proof.
  unfold Py.index. change (-1 <? 0) with true. cbv iota.
  rewrite len_app. change (Py.len [x]) with 1.
  replace (Py.len l + 1 + -1) with (Py.len l) by lia.
  pose proof (len_nonneg l) as Hl.
  destruct (Py.len l <? 0) eqn:E; [apply Z.ltb_lt in E; lia|].
  unfold Py.len. rewrite Nat2Z.id.
  rewrite nth_error_app2 by lia. rewrite Nat.sub_diag. reflexivity.
Qed.

(** An index inside the list finds the element there. *)
Lemma index_nth {T : Type} (l : list T) (i : Z) (d : T) :
  0 <= i < Py.len l -> Py.index l i = Return (nth (Z.to_nat i) l d).
Proof.
  intros [H0 H1]. unfold Py.index.
  destruct (i <? 0) eqn:E; [apply Z.ltb_lt in E; lia|]. rewrite E.
  unfold Py.len in H1.
  destruct (nth_error l (Z.to_nat i)) eqn:N.
  - f_equal. symmetry. apply nth_error_nth. exact N.
  - apply nth_error_None in N. lia.
Qed.

Lemma bound_positive {T : Type} (l : list T) (n : Z) :
  0 <= n -> Py.bound l n = Z.to_nat n.
Proof. intro Hn. unfold Py.bound. destruct (n <? 0) eqn:E; [apply Z.ltb_lt in E; lia|reflexivity]. Qed.

(** With a bound of zero or less, [l[n:]] keeps part of a non-empty list. *)
Lemma drop_nonpositive {T : Type} (l : list T) (n : Z) :
  n <= 0 -> l <> [] -> Py.drop n l <> [].
Proof.
  intros Hn Hl. unfold Py.drop.
  assert (Hlen : (0 < List.length l)%nat) by (destruct l; [congruence | simpl; lia]).
  assert (Hb : (Py.bound l n < List.length l)%nat).
  { unfold Py.bound. destruct (n <? 0) eqn:E.
    - apply Z.ltb_lt in E. unfold Py.len. lia.
    - apply Z.ltb_ge in E. replace n with 0 by lia. simpl. lia. }
  intro E. apply (f_equal (@List.length T)) in E. rewrite length_skipn in E. simpl in E. lia.
Qed.

Lemma range_length (lo hi : Z) : List.length (Py.range lo hi) = Z.to_nat (hi - lo).
Proof. unfold Py.range. rewrite length_map, length_seq. reflexivity. Qed.

Lemma range_In (lo hi x : Z) : In x (Py.range lo hi) <-> lo <= x < hi.
Proof.
  unfold Py.range. rewrite in_map_iff. split.
  - intros [k [E Hk]]. apply in_seq in Hk. lia.
  - intros Hx. exists (Z.to_nat (x - lo)). split; [lia|]. apply in_seq. lia.
Qed.

End PyFacts.

(** ** The normalizer's running sum *)

Section Stepwise.

Context {A : Type} `{Cents A}.

Lemma stepwise_for_all_set (deltas : list A) :
  forall (done : list (option A)) (prev : A),
    stepwise_for (done ++ [Some prev]) (map Some deltas)
    = Return (done ++ Some prev :: map Some (running_sums prev deltas)).
Proof.
  induction deltas as [|d deltas IH]; intros done prev; simpl.
  - reflexivity.
  - rewrite PyFacts.index_last. simpl.
    rewrite IH. rewrite <- app_assoc. reflexivity.
Qed.

(** When every step is set the result is the running sum of the steps. *)
Lemma stepwise_from_root_all_set (first : A) (deltas : list A) :
  stepwise_from_root (Some first :: map Some deltas)
  = Return (Some first :: map Some (running_sums first deltas)).
Proof.
  unfold stepwise_from_root. simpl.
  change (Py.drop 1 (Some first :: map Some deltas)) with (map Some deltas).
  apply (stepwise_for_all_set deltas [] first).
Qed.

Lemma stepwise_for_unset (rest : list (option A)) :
  forall (new_scale : list (option A)) (prev : A),
    In None rest ->
    Py.index new_scale (-1) = Return (Some prev) ->
    stepwise_for new_scale rest = Raise (NameError "new_scape").
Proof.
  induction rest as [|[d|] rest IH]; intros new_scale prev Hin Hlast.
  - destruct Hin.
  - simpl. rewrite Hlast. simpl.
    apply (IH _ (fadd prev d)).
    + destruct Hin as [E|Hin]; [discriminate|exact Hin].
    + apply PyFacts.index_last.
  - reflexivity.
Qed.

(** An unset step after the first stops the conversion: the branch that
    should append it names a list that does not exist. *)
Lemma stepwise_from_root_unset (first : A) (rest : list (option A)) :
  In None rest ->
  stepwise_from_root (Some first :: rest) = Raise (NameError "new_scape").
Proof.
  intro Hin. unfold stepwise_from_root. simpl.
  change (Py.drop 1 (Some first :: rest)) with rest.
  apply (stepwise_for_unset rest [Some first] first Hin).
  apply (PyFacts.index_last [] (Some first)).
Qed.

End Stepwise.

(** ** The batcher *)

Section Batcher.

Context {A : Type} `{Cents A}.

(** *** The loop that cuts the tuples into messages *)

Lemma messages_while_nonpositive (fuel : nat) :
  forall (device_id tuning_program notes_per_message : Z)
         (tuning_tuples : list tuning_tuple) (messages : list message),
    notes_per_message <= 0 ->
    tuning_tuples <> [] ->
    messages_while fuel device_id tuning_program notes_per_message
                   tuning_tuples messages = OutOfFuel.
Proof.
  induction fuel as [|fuel IH]; intros dev prog npm tuples msgs Hn Ht.
  - destruct tuples; [congruence | reflexivity].
  - destruct tuples as [|t tuples]; [congruence|].
    cbn [messages_while]. apply IH; [exact Hn|].
    apply PyFacts.drop_nonpositive; [exact Hn | discriminate].
Qed.

(** One pass with a positive limit and more tuples left than the limit. *)
Lemma messages_while_step (fuel : nat) (dev prog npm : Z)
      (tuning_tuples : list tuning_tuple) (messages : list message) :
  tuning_tuples <> [] ->
  messages_while (S fuel) dev prog npm tuning_tuples messages
  = messages_while fuel dev prog npm (Py.drop npm tuning_tuples)
      (messages ++ [message_of dev prog (Py.take npm tuning_tuples)]).
Proof.
  intro Ht. destruct tuning_tuples; [congruence | reflexivity].
Qed.

Lemma messages_while_done (fuel : nat) (dev prog npm : Z) (messages : list message) :
  messages_while fuel dev prog npm [] messages = Return messages.
Proof. destruct fuel; reflexivity. Qed.

Lemma take_length_le {T : Type} (n : Z) (l : list T) : Py.len (Py.take n l) <= Py.len l.
Proof. unfold Py.take, Py.len. rewrite length_firstn. lia. Qed.

Lemma drop_length_le {T : Type} (n : Z) (l : list T) : Py.len (Py.drop n l) <= Py.len l.
Proof. unfold Py.drop, Py.len. rewrite length_skipn. lia. Qed.

Lemma take_positive {T : Type} (n : Z) (l : list T) :
  0 < n -> l <> [] -> Py.take n l <> [] /\ Py.len (Py.take n l) <= n.
Proof.
  intros Hn Hl. unfold Py.take. rewrite PyFacts.bound_positive by lia. split.
  - destruct l as [|x l]; [congruence|].
    destruct (Z.to_nat n) eqn:E; [lia | simpl; discriminate].
  - unfold Py.len. rewrite length_firstn. lia.
Qed.

Lemma messages_while_well_cut (fuel : nat) :
  forall (dev prog npm most : Z) (tuning_tuples : list tuning_tuple)
         (messages out : list message),
    Py.len tuning_tuples <= most ->
    Forall (well_cut dev prog npm most) messages ->
    messages_while fuel dev prog npm tuning_tuples messages = Return out ->
    Forall (well_cut dev prog npm most) out.
Proof.
  induction fuel as [|fuel IH]; intros dev prog npm most tt msgs out Hlen Hall Hrun.
  - destruct tt; simpl in Hrun; [|discriminate]. congruence.
  - destruct tt as [|t tt]; [simpl in Hrun; congruence|].
    destruct (Z_le_gt_dec npm 0) as [Hn|Hn].
    + rewrite messages_while_nonpositive in Hrun; [discriminate | exact Hn | discriminate].
    + rewrite messages_while_step in Hrun by discriminate.
      refine (IH dev prog npm most _ _ out _ _ Hrun).
      * pose proof (drop_length_le npm (t :: tt)). lia.
      * apply Forall_app. split; [exact Hall|]. constructor; [|constructor].
        destruct (take_positive npm (t :: tt)) as [Hne Hle]; [lia | discriminate |].
        pose proof (take_length_le npm (t :: tt)).
        unfold well_cut. simpl. repeat split; [exact Hne | exact Hle | lia].
Qed.

(** *** The batcher as a whole *)

Lemma raise_above_127
        (fuel : nat) (names : list string) (offsets : list offset)
        (ref : reference_note) (note_range : Z * Z) (dev prog : Z)
        (range : list Z) (npm : Z) (tuning_tuples : list tuning_tuple) :
  tuning_tuples_of names offsets ref range = Return tuning_tuples ->
  Py.len tuning_tuples > 127 ->
  make_mts_messages_per_note_rt fuel names offsets ref note_range dev prog range npm
  = Raise (Exception "Too many notes to tune in one message.").
Proof.
  intros Ht Hlen. unfold make_mts_messages_per_note_rt. rewrite Ht. simpl.
  destruct (Py.len tuning_tuples >? 127) eqn:E; [reflexivity|].
  rewrite Z.gtb_ltb in E. apply Z.ltb_ge in E. lia.
Qed.

(** C5: more than 127 tuples stop the batcher before the first message,
    whatever the fuel and the limit: the cutting loop is not entered. *)
Theorem too_many_tuples_raise
        (fuel : nat) (names : list string) (offsets : list offset)
        (ref : reference_note) (note_range : Z * Z) (dev prog : Z)
        (range : list Z) (npm : Z) (tuning_tuples : list tuning_tuple) :
  tuning_tuples_of names offsets ref range = Return tuning_tuples ->
  Py.len tuning_tuples > 127 ->
  make_mts_messages_per_note_rt fuel names offsets ref note_range dev prog range npm
  = Raise (Exception "Too many notes to tune in one message.").
Proof. apply raise_above_127. Qed.

Lemma at_most_127_splits
      (fuel : nat) (names : list string) (offsets : list offset)
      (ref : reference_note) (note_range : Z * Z) (dev prog : Z)
      (range : list Z) (npm : Z) (tuning_tuples : list tuning_tuple) :
  tuning_tuples_of names offsets ref range = Return tuning_tuples ->
  Py.len tuning_tuples <= 127 ->
  make_mts_messages_per_note_rt fuel names offsets ref note_range dev prog range npm
  = messages_while fuel dev prog npm tuning_tuples [].
Proof.
  intros Ht Hlen. unfold make_mts_messages_per_note_rt. rewrite Ht. simpl.
  destruct (Py.len tuning_tuples >? 127) eqn:E; [|reflexivity].
  rewrite Z.gtb_ltb in E. apply Z.ltb_lt in E. lia.
Qed.

(** C10: with a limit of zero or less the cutting loop does not end once
    there is a tuple to cut, and so the batcher does not return; a byte
    limit of 8 to 11 gives the limit zero. *)
Theorem nonpositive_limit_never_returns
        (names : list string) (offsets : list offset)
        (ref : reference_note) (note_range : Z * Z) (dev prog : Z)
        (range : list Z) (npm : Z) (tuning_tuples : list tuning_tuple) :
  npm <= 0 ->
  tuning_tuples <> [] ->
  never_returns (fun fuel => messages_while fuel dev prog npm tuning_tuples [])
  /\ (tuning_tuples_of names offsets ref range = Return tuning_tuples ->
      Py.len tuning_tuples <= 127 ->
      never_returns (fun fuel =>
        make_mts_messages_per_note_rt fuel names offsets ref note_range
                                      dev prog range npm))
  /\ (forall b, 8 <= b <= 11 -> (b - bytes_header) / bytes_per_note = 0).
Proof.
  intros Hn Ht. split; [|split].
  - intro fuel. apply messages_while_nonpositive; assumption.
  - intros Hrun Hlen fuel. rewrite (at_most_127_splits _ _ _ _ _ _ _ _ _ _ Hrun Hlen).
    apply messages_while_nonpositive; assumption.
  - intros b Hb. unfold bytes_header, bytes_per_note. apply Z.div_small. lia.
Qed.

(** *** Two messages *)

Lemma take_all {T : Type} (n : Z) (l : list T) :
  0 < n -> Py.len l <= n -> Py.take n l = l /\ Py.drop n l = [].
Proof.
  intros Hn Hl. unfold Py.take, Py.drop. rewrite PyFacts.bound_positive by lia.
  unfold Py.len in Hl. split.
  - apply firstn_all2. lia.
  - apply skipn_all2. lia.
Qed.

Lemma drop_length {T : Type} (n : Z) (l : list T) :
  0 < n -> n <= Py.len l -> Py.len (Py.drop n l) = Py.len l - n.
Proof.
  intros Hn Hl. unfold Py.drop. rewrite PyFacts.bound_positive by lia.
  unfold Py.len in *. rewrite length_skipn. lia.
Qed.

Lemma take_length {T : Type} (n : Z) (l : list T) :
  0 < n -> n <= Py.len l -> Py.len (Py.take n l) = n.
Proof.
  intros Hn Hl. unfold Py.take. rewrite PyFacts.bound_positive by lia.
  unfold Py.len in *. rewrite length_firstn. lia.
Qed.

(** C6, as the code has it: more tuples than the limit, at most twice the
    limit and at most 127, come out as two messages, the first with as many
    tuples as the limit allows and the second with the rest. *)
Theorem two_messages
        (fuel : nat) (names : list string) (offsets : list offset)
        (ref : reference_note) (note_range : Z * Z) (dev prog : Z)
        (range : list Z) (npm : Z) (tuning_tuples : list tuning_tuple) :
  tuning_tuples_of names offsets ref range = Return tuning_tuples ->
  npm < Py.len tuning_tuples ->
  Py.len tuning_tuples <= 2 * npm ->
  Py.len tuning_tuples <= 127 ->
  exists first second,
    make_mts_messages_per_note_rt (S (S fuel)) names offsets ref note_range
                                  dev prog range npm
    = Return [first; second]
    /\ tuples first = firstn (Z.to_nat npm) tuning_tuples
    /\ tuples second = skipn (Z.to_nat npm) tuning_tuples
    /\ count first = npm
    /\ count second = Py.len tuning_tuples - npm
    /\ first = message_of dev prog (tuples first)
    /\ second = message_of dev prog (tuples second).
Proof.
  intros Hrun Hlo Hhi Hmax.
  pose proof (PyFacts.len_nonneg tuning_tuples) as H0.
  assert (Hn : 0 < npm) by lia.
  rewrite (at_most_127_splits _ _ _ _ _ _ _ _ _ _ Hrun Hmax).
  assert (Ht : tuning_tuples <> []).
  { intro E. rewrite E in Hlo. change (Py.len (@nil tuning_tuple)) with 0 in Hlo. lia. }
  rewrite messages_while_step by exact Ht.
  assert (Hd : Py.len (Py.drop npm tuning_tuples) = Py.len tuning_tuples - npm)
    by (apply drop_length; lia).
  assert (Hr : Py.drop npm tuning_tuples <> []).
  { intro E. rewrite E in Hd. change (Py.len (@nil tuning_tuple)) with 0 in Hd. lia. }
  rewrite messages_while_step by exact Hr.
  destruct (take_all npm (Py.drop npm tuning_tuples)) as [Ea Eb]; [lia | lia |].
  rewrite Ea, Eb, messages_while_done. simpl.
  exists (message_of dev prog (Py.take npm tuning_tuples)),
         (message_of dev prog (Py.drop npm tuning_tuples)).
  assert (Et : Py.take npm tuning_tuples = firstn (Z.to_nat npm) tuning_tuples)
    by (unfold Py.take; rewrite PyFacts.bound_positive by lia; reflexivity).
  assert (Es : Py.drop npm tuning_tuples = skipn (Z.to_nat npm) tuning_tuples)
    by (unfold Py.drop; rewrite PyFacts.bound_positive by lia; reflexivity).
  repeat split; simpl.
  - exact Et.
  - exact Es.
  - apply take_length; lia.
  - exact Hd.
Qed.

(** *** Every note encodes *)

Lemma tuples_for_all_encode (offsets : list offset) (start modulus : Z)
      (note_ids : list Z) :
  (forall note_id, In note_id note_ids ->
     exists s d t,
       Py.index offsets ((note_id + start) mod modulus) = Return (Some (s, d))
       /\ make_mts_tuple note_id s d = Return t) ->
  exists tuning_tuples,
    tuples_for offsets start modulus note_ids = Return tuning_tuples
    /\ List.length tuning_tuples = List.length note_ids.
Proof.
  induction note_ids as [|note_id note_ids IH]; intro Hall.
  - exists []. split; reflexivity.
  - destruct (Hall note_id (or_introl eq_refl)) as (s & d & [[semitone msb] lsb] & Hi & Ht).
    destruct IH as (rest & Hrest & Hlen).
    { intros n Hn. apply Hall. right. exact Hn. }
    exists ((note_id, semitone, msb, lsb) :: rest). split.
    + simpl. rewrite Hi. simpl. rewrite Ht, Hrest. reflexivity.
    + simpl. rewrite Hlen. reflexivity.
Qed.

(** C7: over the default range 0 to 127, a table in which every note finds
    a set entry that encodes gives 128 tuples, and the batcher stops with
    the error instead of a message. *)
Theorem default_range_all_encode_raises
        (fuel : nat) (names : list string) (offsets : list offset)
        (ref : reference_note) (note_range : Z * Z) (dev prog npm k : Z) :
  Py.index_of (note ref) names = Return k ->
  (forall note_id, 0 <= note_id <= 127 ->
     exists s d t,
       Py.index offsets ((note_id + (ID ref + k) mod Py.len names) mod Py.len names)
       = Return (Some (s, d))
       /\ make_mts_tuple note_id s d = Return t) ->
  make_mts_messages_per_note_rt fuel names offsets ref note_range dev prog [0; 127] npm
  = Raise (Exception "Too many notes to tune in one message.").
Proof.
  intros Hk Hall.
  destruct (tuples_for_all_encode offsets ((ID ref + k) mod Py.len names)
              (Py.len names) (Py.range 0 128)) as (tt & Htt & Hlen).
  { intros n Hn. apply Hall. apply PyFacts.range_In in Hn. lia. }
  apply (raise_above_127 _ _ _ _ _ _ _ _ _ tt).
  - unfold tuning_tuples_of. rewrite Hk. cbn [bind].
    change (Py.index [0; 127] 0) with (@Return Z 0).
    change (Py.index [0; 127] 1) with (@Return Z 127).
    cbn [bind]. change (127 + 1) with 128. exact Htt.
  - unfold Py.len. rewrite Hlen, PyFacts.range_length. reflexivity.
Qed.

End Batcher.

(** ** The resolver over exact rationals *)

Section ExactResolver.

Local Open Scope Q_scope.

Lemma in_semitone_exact (d : Q) : in_semitone d = true <-> 0 <= d < 100.
Proof.
  unfold in_semitone, midi_max_cents_offset. simpl.
  rewrite andb_true_iff, negb_true_iff, Qle_bool_iff.
  change (inject_Z 0) with 0. change (inject_Z 100) with 100.
  split.
  - intros [H0 H1]. split; [exact H0|].
    apply Qnot_le_lt. intro Hle. apply Qle_bool_iff in Hle. congruence.
  - intros [H0 H1]. split; [exact H0|].
    destruct (Qle_bool 100 d) eqn:E; [|reflexivity].
    apply Qle_bool_iff in E. apply Qle_not_lt in E. contradiction.
Qed.

Lemma outside_semitone_exact (d : Q) :
  in_semitone d = false ->
  (copysign1 d = 1%Z /\ 100 <= d) \/ (copysign1 d = (-1)%Z /\ d < 0).
Proof.
  intro Hout. simpl. destruct (Qle_bool 0 d) eqn:E.
  - left. split; [reflexivity|]. apply Qle_bool_iff in E.
    destruct (Qlt_le_dec d 100) as [Hlt|Hge]; [|exact Hge].
    assert (in_semitone d = true) by (apply in_semitone_exact; split; assumption).
    congruence.
  - right. split; [reflexivity|]. apply Qnot_le_lt. intro Hle.
    apply Qle_bool_iff in Hle. congruence.
Qed.

Lemma eqtemp12_index (k : Z) :
  (0 <= k < 12)%Z ->
  Py.index (@eqtemp12_cents Q _) k = Return (inject_Z (100 * k)).
Proof.
  intro Hk.
  assert (E : k = 0%Z \/ k = 1%Z \/ k = 2%Z \/ k = 3%Z \/ k = 4%Z \/ k = 5%Z \/ k = 6%Z
              \/ k = 7%Z \/ k = 8%Z \/ k = 9%Z \/ k = 10%Z \/ k = 11%Z) by lia.
  repeat (destruct E as [E|E]; [subst k; reflexivity|]). subst k. reflexivity.
Qed.

(** One pass of the loop moves the running offset by one semitone towards
    the interval and keeps the bookkeeping of steps and octaves. *)
Lemma resolve_body_exact (c : Q) (i : Z) (st : @resolver Q) :
  resolver_inv c i st ->
  in_semitone (cents_offset st) = false ->
  exists st',
    resolve_body eqtemp12_cents st = Return st'
    /\ resolver_inv c i st'
    /\ steps_offset st' = (steps_offset st + copysign1 (cents_offset st))%Z
    /\ cents_offset st' == cents_offset st - inject_Z (100 * copysign1 (cents_offset st)).
Proof.
  destruct st as [k n s d]. unfold resolver_inv. cbn [cur_step cur_note steps_offset cents_offset].
  intros (Hk & Hd & k0 & Hn & Hs) Hout.
  unfold resolve_body. cbn [cur_step cur_note steps_offset cents_offset].
  change (Py.len (@eqtemp12_cents Q _)) with 12%Z.
  destruct (outside_semitone_exact d Hout) as [[Hsg Hge]|[Hsg Hlt]]; rewrite Hsg.
  - destruct (Z.eq_dec k 11) as [E|E].
    + subst k.
      exists (mkResolver 0 (n - inject_Z 1 * inject_Z 1200) (s + 1)
                         (n - inject_Z 1 * inject_Z 1200 - inject_Z 0)).
      split; [reflexivity|]. cbn [cur_step cur_note steps_offset cents_offset].
      split; [split; [lia|split]|split]; try reflexivity.
      * exists (k0 + 1)%Z. split; [|lia].
        rewrite Hn. rewrite !inject_Z_mult, inject_Z_plus. ring.
      * rewrite Hd. rewrite !inject_Z_mult. ring.
    + assert (Hw : negb ((0 <=? k + 1)%Z && (k + 1 <? 12)%Z) = false).
      { apply negb_false_iff, andb_true_iff. split; [apply Z.leb_le|apply Z.ltb_lt]; lia. }
      rewrite Hw. rewrite eqtemp12_index by lia. cbn [bind].
      eexists. split; [reflexivity|]. cbn [cur_step cur_note steps_offset cents_offset].
      split; [split; [lia|split]|split]; try reflexivity.
      * exists k0. split; [exact Hn|lia].
      * cbn [fsub ExactCents]. rewrite Hd. rewrite !inject_Z_mult, inject_Z_plus. ring.
  - destruct (Z.eq_dec k 0) as [E|E].
    + subst k.
      exists (mkResolver 11 (n - inject_Z (-1) * inject_Z 1200) (s + -1)
                         (n - inject_Z (-1) * inject_Z 1200 - inject_Z 1100)).
      split; [reflexivity|]. cbn [cur_step cur_note steps_offset cents_offset].
      split; [split; [lia|split]|split]; try reflexivity.
      * exists (k0 + -1)%Z. split; [|lia].
        rewrite Hn. rewrite !inject_Z_mult, inject_Z_plus. ring.
      * rewrite Hd. rewrite !inject_Z_mult. ring.
    + assert (Hw : negb ((0 <=? k + -1)%Z && (k + -1 <? 12)%Z) = false).
      { apply negb_false_iff, andb_true_iff. split; [apply Z.leb_le|apply Z.ltb_lt]; lia. }
      rewrite Hw. rewrite eqtemp12_index by lia. cbn [bind].
      eexists. split; [reflexivity|]. cbn [cur_step cur_note steps_offset cents_offset].
      split; [split; [lia|split]|split]; try reflexivity.
      * exists k0. split; [exact Hn|lia].
      * cbn [fsub ExactCents]. rewrite Hd. rewrite !inject_Z_mult, inject_Z_plus. ring.
Qed.

Lemma not_in_semitone_exact (d : Q) : ~ (0 <= d < 100) -> in_semitone d = false.
Proof.
  intro Hn. destruct (in_semitone d) eqn:E; [|reflexivity].
  apply in_semitone_exact in E. contradiction.
Qed.

Lemma resolve_while_in (fuel : nat) (st : @resolver Q) :
  in_semitone (cents_offset st) = true ->
  resolve_while fuel eqtemp12_cents st = Return st.
Proof. intro Hin. destruct fuel; simpl; rewrite Hin; reflexivity. Qed.

Lemma resolve_while_out (fuel : nat) (st st' : @resolver Q) :
  in_semitone (cents_offset st) = false ->
  resolve_body eqtemp12_cents st = Return st' ->
  resolve_while (S fuel) eqtemp12_cents st = resolve_while fuel eqtemp12_cents st'.
Proof. intros Hout Hb. simpl. rewrite Hout, Hb. reflexivity. Qed.

(** The loop from a state whose offset lies [m] semitones away from the
    interval: it needs exactly [|m|] passes. *)
Lemma resolve_while_exact (n : nat) :
  forall (c : Q) (i : Z) (st : @resolver Q) (m : Z),
    resolver_inv c i st ->
    inject_Z m * 100 <= cents_offset st < inject_Z m * 100 + 100 ->
    Z.abs m = Z.of_nat n ->
    (forall fuel, (fuel < n)%nat -> resolve_while fuel eqtemp12_cents st = OutOfFuel)
    /\ (forall fuel, (n <= fuel)%nat ->
          exists st',
            resolve_while fuel eqtemp12_cents st = Return st'
            /\ resolver_inv c i st'
            /\ in_semitone (cents_offset st') = true
            /\ steps_offset st' = (steps_offset st + m)%Z
            /\ cents_offset st' == cents_offset st - inject_Z m * 100).
Proof.
  induction n as [|n IH]; intros c i st m Hinv Hb Habs.
  - assert (m = 0%Z) by lia. subst m. change (inject_Z 0) with 0 in *.
    assert (Hin : in_semitone (cents_offset st) = true) by (apply in_semitone_exact; lra).
    split; [intros fuel Hf; lia|].
    intros fuel _. exists st. rewrite resolve_while_in by exact Hin.
    refine (conj eq_refl (conj Hinv (conj Hin (conj _ _)))); [lia | ring].
  - assert (Hm : (1 <= m)%Z \/ (m <= -1)%Z) by lia.
    assert (Hout : in_semitone (cents_offset st) = false).
    { apply not_in_semitone_exact. intros [H0 H1].
      destruct Hm as [Hm|Hm]; rewrite Zle_Qle in Hm;
        [change (inject_Z 1) with 1 in Hm | change (inject_Z (-1)) with (-1) in Hm]; lra. }
    destruct (resolve_body_exact c i st Hinv Hout) as (st1 & Hbody & Hinv1 & Hs1 & Hd1).
    destruct (outside_semitone_exact _ Hout) as [[Hsg Hge]|[Hsg Hlt]];
      rewrite Hsg in Hs1, Hd1.
    + assert (Hpos : (1 <= m)%Z).
      { destruct Hm as [Hm|Hm]; [exact Hm|]. rewrite Zle_Qle in Hm.
        change (inject_Z (-1)) with (-1) in Hm. lra. }
      destruct (IH c i st1 (m + -1)%Z Hinv1) as [Hlow Hhigh].
      { rewrite Hd1, inject_Z_plus. change (inject_Z (100 * 1)) with 100.
        change (inject_Z (-1)) with (-1). lra. }
      { lia. }
      split.
      * intros [|fuel] Hf; [simpl; rewrite Hout; reflexivity|].
        rewrite (resolve_while_out fuel st st1 Hout Hbody). apply Hlow. lia.
      * intros [|fuel] Hf; [lia|].
        rewrite (resolve_while_out fuel st st1 Hout Hbody).
        destruct (Hhigh fuel ltac:(lia)) as (st' & Hrun & Hinv' & Hin' & Hs' & Hd').
        exists st'. refine (conj Hrun (conj Hinv' (conj Hin' (conj _ _)))).
        -- lia.
        -- rewrite Hd', Hd1, inject_Z_plus. change (inject_Z (100 * 1)) with 100.
           change (inject_Z (-1)) with (-1). ring.
    + assert (Hneg : (m <= -1)%Z).
      { destruct Hm as [Hm|Hm]; [|exact Hm]. rewrite Zle_Qle in Hm.
        change (inject_Z 1) with 1 in Hm. lra. }
      destruct (IH c i st1 (m + 1)%Z Hinv1) as [Hlow Hhigh].
      { rewrite Hd1, inject_Z_plus. change (inject_Z (100 * -1)) with (-100).
        change (inject_Z 1) with 1. lra. }
      { lia. }
      split.
      * intros [|fuel] Hf; [simpl; rewrite Hout; reflexivity|].
        rewrite (resolve_while_out fuel st st1 Hout Hbody). apply Hlow. lia.
      * intros [|fuel] Hf; [lia|].
        rewrite (resolve_while_out fuel st st1 Hout Hbody).
        destruct (Hhigh fuel ltac:(lia)) as (st' & Hrun & Hinv' & Hin' & Hs' & Hd').
        exists st'. refine (conj Hrun (conj Hinv' (conj Hin' (conj _ _)))).
        -- lia.
        -- rewrite Hd', Hd1, inject_Z_plus. change (inject_Z (100 * -1)) with (-100).
           change (inject_Z 1) with 1. ring.
Qed.

Lemma resolve_exact (c : Q) (i : Z) :
  (0 <= i < 12)%Z ->
  let m := semitones_away c i in
  (forall fuel, (fuel < Z.to_nat (Z.abs m))%nat ->
     resolve fuel eqtemp12_cents i c (inject_Z (100 * i)) = OutOfFuel)
  /\ (forall fuel, (Z.to_nat (Z.abs m) <= fuel)%nat ->
        exists st,
          resolve fuel eqtemp12_cents i c (inject_Z (100 * i)) = Return st
          /\ resolved c i st
          /\ steps_offset st = m
          /\ cents_offset st == c - inject_Z (100 * i) - inject_Z m * 100).
Proof.
  intros Hi m. unfold resolve.
  set (st0 := mkResolver i c 0 (fsub c (inject_Z (100 * i)))).
  assert (Hinv : resolver_inv c i st0).
  { unfold resolver_inv, st0. cbn [cur_step cur_note steps_offset cents_offset].
    split; [exact Hi|]. split; [reflexivity|].
    exists 0%Z. split; [|lia]. change (inject_Z (1200 * 0)) with 0. ring. }
  assert (Hb : inject_Z m * 100 <= cents_offset st0 < inject_Z m * 100 + 100).
  { unfold st0. cbn [cents_offset fsub ExactCents].
    set (d := c - inject_Z (100 * i)).
    assert (Hx : d == (d / 100) * 100) by (field).
    pose proof (Qfloor_le (d / 100)) as Hlo.
    pose proof (Qlt_floor (d / 100)) as Hhi.
    rewrite inject_Z_plus in Hhi. change (inject_Z 1) with 1 in Hhi.
    fold d in m. unfold semitones_away in m. fold d in m. fold m in Hlo, Hhi. lra. }
  destruct (resolve_while_exact (Z.to_nat (Z.abs m)) c i st0 m Hinv Hb ltac:(lia))
    as [Hlow Hhigh].
  split; [exact Hlow|].
  intros fuel Hf. destruct (Hhigh fuel Hf) as (st & Hrun & Hinv' & Hin & Hs & Hd).
  exists st. split; [exact Hrun|]. split; [|split].
  - destruct Hinv' as (Hk & Hd' & k & Hn & Hsum).
    apply in_semitone_exact in Hin.
    unfold resolved. split; [exact Hin|]. split; [exact Hk|]. split.
    + apply Z.mod_unique with k; [left; exact Hk | lia].
    + exists k. rewrite Hd', Hn. rewrite !inject_Z_mult. ring.
  - rewrite Hs. unfold st0. cbn [steps_offset]. lia.
  - rewrite Hd. unfold st0. cbn [cents_offset fsub ExactCents]. reflexivity.
Qed.

End ExactResolver.

(** ** The whole table over exact rationals *)

Section ExactOffsets.

Local Open Scope Q_scope.

Lemma aligned_eqtemp12 : aligned 0 (@eqtemp12_cents Q _).
Proof.
  intros n b.
  do 12 (destruct n as [|n]; [intro E; inversion E; split; [reflexivity | lia]|]).
  destruct n; discriminate.
Qed.

Lemma aligned_tail (j : Z) (b : Q) (l : list Q) :
  aligned j (b :: l) ->
  b = inject_Z (100 * j) /\ (0 <= j < 12)%Z /\ aligned (j + 1) l.
Proof.
  intro Ha. destruct (Ha 0%nat b eq_refl) as [Eb Hj].
  replace (j + Z.of_nat 0)%Z with j in * by lia.
  split; [exact Eb|]. split; [exact Hj|].
  intros n b' Hn. destruct (Ha (S n) b' Hn) as [Eb' Hj'].
  replace (j + 1 + Z.of_nat n)%Z with (j + Z.of_nat (S n))%Z by lia.
  split; assumption.
Qed.

Lemma offsets_for_exact (scale : list (option Q)) :
  forall (l : list Q) (j : Z),
    aligned j l ->
    exists fuel0 : nat,
      forall fuel, (fuel0 <= fuel)%nat ->
        exists offsets,
          offsets_for fuel eqtemp12_cents (Py.enumerate_from j (combine scale l))
          = Return offsets
          /\ List.length offsets = Nat.min (List.length scale) (List.length l)
          /\ forall n c, nth_error scale n = Some c -> (n < List.length l)%nat ->
               exists o, nth_error offsets n = Some o
                         /\ resolved_entry fuel (j + Z.of_nat n) c o.
Proof.
  induction scale as [|c scale IH]; intros l j Ha.
  - exists 0%nat. intros fuel _. exists []. split; [reflexivity|]. split; [reflexivity|].
    intros [|n] c E; discriminate.
  - destruct l as [|b l].
    + exists 0%nat. intros fuel _. exists []. split; [reflexivity|]. split; [reflexivity|].
      intros n c' _ Hn. simpl in Hn. lia.
    + destruct (aligned_tail j b l Ha) as (Eb & Hj & Ha').
      destruct (IH l (j + 1)%Z Ha') as (fuel1 & Hrest).
      destruct c as [q|].
      * destruct (resolve_exact q j Hj) as [_ Hq]. cbv zeta in Hq.
        exists (Nat.max (Z.to_nat (Z.abs (semitones_away q j))) fuel1).
        intros fuel Hf.
        destruct (Hq fuel ltac:(lia)) as (st & Hrun & Hres & _ & _).
        destruct (Hrest fuel ltac:(lia)) as (offs & Hoffs & Hlen & Hnth).
        exists (Some (steps_offset st, cents_offset st) :: offs).
        split; [|split].
        -- cbn [combine Py.enumerate_from offsets_for]. rewrite Eb, Hrun. cbn [bind].
           rewrite Hoffs. reflexivity.
        -- simpl. rewrite Hlen. reflexivity.
        -- intros [|n] c' E Hn.
           ++ injection E as <-. eexists. split; [reflexivity|].
              replace (j + Z.of_nat 0)%Z with j by lia.
              exists st. split; [exact Hrun|]. split; [reflexivity|exact Hres].
           ++ simpl in E, Hn. destruct (Hnth n c' E ltac:(lia)) as (o & Ho & Hok).
              exists o. split; [exact Ho|].
              replace (j + Z.of_nat (S n))%Z with (j + 1 + Z.of_nat n)%Z by lia. exact Hok.
      * exists fuel1. intros fuel Hf.
        destruct (Hrest fuel Hf) as (offs & Hoffs & Hlen & Hnth).
        exists (None :: offs). split; [|split].
        -- cbn [combine Py.enumerate_from offsets_for]. rewrite Hoffs. reflexivity.
        -- simpl. rewrite Hlen. reflexivity.
        -- intros [|n] c' E Hn.
           ++ injection E as <-. eexists. split; reflexivity.
           ++ simpl in E, Hn. destruct (Hnth n c' E ltac:(lia)) as (o & Ho & Hok).
              exists o. split; [exact Ho|].
              replace (j + Z.of_nat (S n))%Z with (j + 1 + Z.of_nat n)%Z by lia. exact Hok.
Qed.



End ExactOffsets.

(** ** The resolver on binary64 *)

Section AbsorbedOctave.

(** At 1e20 the spacing of binary64 values is 16384: taking a table entry
    or an octave away leaves the value as it is, and the loop goes round
    the table without moving. *)
Lemma resolve_body_absorbed (k s : Z) :
  0 <= k < 12 ->
  resolve_body (@eqtemp12_cents float _) (mkResolver k huge_cents s huge_cents)
  = Return (mkResolver ((k + 1) mod 12) huge_cents (s + 1) huge_cents).
Proof.
  intro Hk.
  assert (E : k = 0 \/ k = 1 \/ k = 2 \/ k = 3 \/ k = 4 \/ k = 5 \/ k = 6
              \/ k = 7 \/ k = 8 \/ k = 9 \/ k = 10 \/ k = 11) by lia.
  repeat (destruct E as [E|E]; [subst k; reflexivity|]).
  subst k; reflexivity.
Qed.

Lemma resolve_while_absorbed (fuel : nat) :
  forall k s, 0 <= k < 12 ->
    resolve_while fuel (@eqtemp12_cents float _) (mkResolver k huge_cents s huge_cents)
    = OutOfFuel.
Proof.
  induction fuel as [|fuel IH]; intros k s Hk.
  - reflexivity.
  - cbn [resolve_while cents_offset].
    change (in_semitone huge_cents) with false. cbv iota.
    rewrite (resolve_body_absorbed k s Hk). cbn [bind].
    apply IH. apply Z.mod_pos_bound. lia.
Qed.


End AbsorbedOctave.

(** ** The tuple encoder *)

Section Encoder.

Context {A : Type} `{Cents A}.

(** [make_mts_tuple] returns exactly when the retuned semitone is a MIDI
    note, the cents lie in the semitone, and the two fraction bytes fit;
    what it returns are three data bytes. *)
Lemma make_mts_tuple_returns (note_id step_offset : Z) (cents : A) (semitone msb lsb : Z) :
  make_mts_tuple note_id step_offset cents = Return (semitone, msb, lsb)
  <-> semitone = note_id + step_offset
      /\ in_semitone cents = true
      /\ msb = ffloor (midi_fraction cents)
      /\ lsb = fround (fmul (fsub (midi_fraction cents) (of_int msb)) (of_int 128))
      /\ 0 <= semitone <= 127 /\ 0 <= msb <= 127 /\ 0 <= lsb <= 127.
Proof.
  unfold make_mts_tuple, midi_fraction, midi_note_range, is_data_byte.
  cbn [fst snd forallb]. change (2 ^ 7) with 128.
  set (m := fmul cents (fdiv (of_int 128) midi_max_cents_offset)).
  set (b := ffloor m).
  set (l := fround (fmul (fsub m (of_int b)) (of_int 128))).
  destruct ((0 <=? note_id + step_offset) && (note_id + step_offset <=? 127)) eqn:E1;
    cbn [negb].
  2:{ split; [discriminate|]. intros (-> & _ & _ & _ & Hs & _).
      apply andb_false_iff in E1. destruct E1 as [E|E];
        [apply Z.leb_gt in E | apply Z.leb_gt in E]; lia. }
  destruct (in_semitone cents) eqn:E2; cbn [negb].
  2:{ split; [discriminate|]. intros (_ & ? & _). discriminate. }
  rewrite andb_true_r. cbn [andb].
  apply andb_true_iff in E1. destruct E1 as [Ha Hb]. apply Z.leb_le in Ha, Hb.
  destruct (((0 <=? b) && (b <=? 127)) && ((0 <=? l) && (l <=? 127))) eqn:E3; cbn [negb].
  - apply andb_true_iff in E3. destruct E3 as [E3 E4].
    apply andb_true_iff in E3, E4. destruct E3 as [Hc Hd], E4 as [He Hf].
    apply Z.leb_le in Hc, Hd, He, Hf.
    split.
    + intro E. injection E as <- <- <-. repeat split; assumption.
    + intros (-> & _ & -> & -> & _). reflexivity.
  - split; [discriminate|].
    intros (_ & _ & -> & -> & _ & Hm & Hl). fold l in Hl.
    apply andb_false_iff in E3. destruct E3 as [E|E]; apply andb_false_iff in E;
      destruct E as [E|E]; apply Z.leb_gt in E; lia.
Qed.

End Encoder.

Section EncoderFails.

Context {A : Type} `{Cents A}.

(** The three ways the encoder raises, in the order it checks. *)
Lemma make_mts_tuple_raises (note_id step_offset : Z) (cents : A) :
  let semitone := note_id + step_offset in
  let msb := ffloor (midi_fraction cents) in
  let lsb := fround (fmul (fsub (midi_fraction cents) (of_int msb)) (of_int 128)) in
  (~ 0 <= semitone <= 127 ->
     make_mts_tuple note_id step_offset cents = Raise (Exception "semitone not in range"))
  /\ (0 <= semitone <= 127 -> in_semitone cents = false ->
        make_mts_tuple note_id step_offset cents
        = Raise (Exception "cents offset not in range"))
  /\ (0 <= semitone <= 127 -> in_semitone cents = true ->
        ~ (0 <= msb <= 127 /\ 0 <= lsb <= 127) ->
        make_mts_tuple note_id step_offset cents
        = Raise (Exception "internal error: tuning offset data exceeded maximum MIDI value")).
Proof.
  intros semitone msb lsb.
  unfold make_mts_tuple, midi_note_range, is_data_byte.
  cbn [fst snd forallb]. change (2 ^ 7) with 128.
  fold (midi_fraction cents). fold semitone. fold msb. fold lsb.
  split; [|split].
  - intro Hs.
    destruct ((0 <=? semitone) && (semitone <=? 127)) eqn:E; [|reflexivity].
    apply andb_true_iff in E. destruct E as [Ea Eb]. apply Z.leb_le in Ea, Eb. lia.
  - intros Hs Hc.
    assert (E : (0 <=? semitone) && (semitone <=? 127) = true)
      by (apply andb_true_iff; split; apply Z.leb_le; lia).
    rewrite E, Hc. reflexivity.
  - intros Hs Hc Hb.
    assert (E : (0 <=? semitone) && (semitone <=? 127) = true)
      by (apply andb_true_iff; split; apply Z.leb_le; lia).
    rewrite E, Hc. cbn [negb andb]. rewrite andb_true_r.
    destruct (((0 <=? msb) && (msb <=? 127)) && ((0 <=? lsb) && (lsb <=? 127))) eqn:E3;
      [|reflexivity].
    exfalso. apply Hb.
    apply andb_true_iff in E3. destruct E3 as [E3 E4].
    apply andb_true_iff in E3, E4. destruct E3 as [Hc' Hd], E4 as [He Hf].
    apply Z.leb_le in Hc', Hd, He, Hf. lia.
Qed.

End EncoderFails.

(** ** The encoder over exact rationals *)

Section ExactEncoder.

Local Open Scope Q_scope.

Lemma Qfloor_between (lo hi : Z) (x : Q) :
  inject_Z lo <= x < inject_Z hi -> (lo <= Qfloor x < hi)%Z.
Proof.
  intros [Hlo Hhi]. split.
  - rewrite <- (Qfloor_Z lo). apply Qfloor_resp_le. exact Hlo.
  - rewrite Zlt_Qlt. apply Qle_lt_trans with x; [apply Qfloor_le | exact Hhi].
Qed.

(** [round] lands within a half of its argument. *)
Lemma Qround_half_even_near (x : Q) :
  inject_Z (Qround_half_even x) - (1 # 2) <= x <= inject_Z (Qround_half_even x) + (1 # 2).
Proof.
  unfold Qround_half_even.
  pose proof (Qfloor_le x) as Hlo. pose proof (Qlt_floor x) as Hhi.
  rewrite inject_Z_plus in Hhi. change (inject_Z 1) with 1 in Hhi.
  destruct (x - inject_Z (Qfloor x) ?= 1 # 2) eqn:E.
  - apply Qeq_alt in E. destruct (Z.even (Qfloor x)).
    + lra.
    + rewrite inject_Z_plus. change (inject_Z 1) with 1. lra.
  - apply Qlt_alt in E. lra.
  - apply Qgt_alt in E. rewrite inject_Z_plus. change (inject_Z 1) with 1. lra.
Qed.

(** Just below 128 the last byte rounds up to 128: at 127.5 the half goes
    to the even neighbour, which is 128. *)
Lemma Qround_half_even_128 (y : Q) :
  0 <= y < 128 ->
  (0 <= Qround_half_even y <= 128)%Z
  /\ (Qround_half_even y = 128%Z <-> 255 # 2 <= y).
Proof.
  intros [H0 H1]. pose proof (Qround_half_even_near y) as [Ha Hb].
  split.
  - split.
    + assert (Hx : inject_Z (-1) < inject_Z (Qround_half_even y))
        by (change (inject_Z (-1)) with (-1); lra).
      rewrite <- Zlt_Qlt in Hx. lia.
    + assert (Hx : inject_Z (Qround_half_even y) < inject_Z 129)
        by (change (inject_Z 129) with 129; lra).
      rewrite <- Zlt_Qlt in Hx. lia.
  - split.
    + intro E. rewrite E in Ha. change (inject_Z 128) with 128 in Ha. lra.
    + intro Hy. unfold Qround_half_even.
      assert (Hf : Qfloor y = 127%Z).
      { assert (Hx : (127 <= Qfloor y < 128)%Z)
          by (apply Qfloor_between; change (inject_Z 127) with 127;
              change (inject_Z 128) with 128; lra).
        lia. }
      rewrite Hf. change (inject_Z 127) with 127.
      destruct (y - 127 ?= 1 # 2) eqn:E.
      * reflexivity.
      * apply Qlt_alt in E. lra.
      * reflexivity.
Qed.

Lemma midi_fraction_exact (c : Q) : midi_fraction c == c * (32 # 25).
Proof.
  unfold midi_fraction, midi_max_cents_offset. cbn [fmul fdiv of_int ExactCents].
  assert (E : inject_Z 128 / inject_Z 100 == 32 # 25) by reflexivity.
  rewrite E. reflexivity.
Qed.

(** What the encoder does with cents in [0, 100) for a semitone in range:
    the first fraction byte always fits; the second is rounded, and when
    the remainder is 127.5/128 or more of a unit it comes out as 128 and
    the encoder raises its internal error. *)
Lemma make_mts_tuple_exact (note_id step_offset : Z) (c : Q) :
  (0 <= note_id + step_offset <= 127)%Z ->
  0 <= c < 100 ->
  let msb := Qfloor (midi_fraction c) in
  let rest := (midi_fraction c - inject_Z msb) * 128 in
  (0 <= msb <= 127)%Z
  /\ 0 <= rest < 128
  /\ (rest < 255 # 2 ->
        make_mts_tuple note_id step_offset c
        = Return ((note_id + step_offset)%Z, msb, Qround_half_even rest)
        /\ (0 <= Qround_half_even rest <= 127)%Z)
  /\ (255 # 2 <= rest ->
        make_mts_tuple note_id step_offset c
        = Raise (Exception "internal error: tuning offset data exceeded maximum MIDI value")).
Proof.
  intros Hs Hc msb rest.
  assert (Hin : in_semitone c = true) by (apply in_semitone_exact; exact Hc).
  pose proof (midi_fraction_exact c) as Hm.
  assert (Hmsb : (0 <= msb < 128)%Z).
  { apply Qfloor_between. change (inject_Z 0) with 0. change (inject_Z 128) with 128.
    rewrite Hm. lra. }
  assert (Hrest : 0 <= rest < 128).
  { pose proof (Qfloor_le (midi_fraction c)) as Hlo.
    pose proof (Qlt_floor (midi_fraction c)) as Hhi.
    rewrite inject_Z_plus in Hhi. change (inject_Z 1) with 1 in Hhi.
    fold msb in Hlo, Hhi. unfold rest. lra. }
  destruct (Qround_half_even_128 rest Hrest) as [Hr Hr128].
  split; [lia|]. split; [exact Hrest|]. split.
  - intro Hlt.
    assert (Hne : Qround_half_even rest <> 128%Z) by (intro E; apply Hr128 in E; lra).
    split; [|lia].
    apply make_mts_tuple_returns.
    repeat split; try reflexivity; try exact Hin; lia.
  - intro Hge.
    apply (make_mts_tuple_raises note_id step_offset c); [exact Hs | exact Hin |].
    intros [_ Hl].
    change (fround (fmul (fsub (midi_fraction c) (of_int (ffloor (midi_fraction c))))
                         (of_int 128)))
      with (Qround_half_even rest) in Hl.
    apply Hr128 in Hge. lia.
Qed.

End ExactEncoder.

Section ExactRoundTrip.

Local Open Scope Q_scope.

(** The two fraction bytes give the cents back to within half a unit of
    the last byte, 100/32768 of a cent. *)
Lemma make_mts_tuple_round_trip (note_id step_offset : Z) (c : Q) (semitone msb lsb : Z) :
  make_mts_tuple note_id step_offset c = Return (semitone, msb, lsb) ->
  - (100 # 32768)
  <= c - (inject_Z msb * (100 # 128) + inject_Z lsb * (100 # 16384))
  <= 100 # 32768.
Proof.
  intro Hrun. apply make_mts_tuple_returns in Hrun.
  destruct Hrun as (_ & _ & Hmsb & Hlsb & _).
  pose proof (midi_fraction_exact c) as Hm.
  cbn [fround fmul fsub of_int ExactCents] in Hlsb.
  pose proof (Qround_half_even_near ((midi_fraction c - inject_Z msb) * inject_Z 128))
    as [Ha Hb].
  rewrite <- Hlsb in Ha, Hb. change (inject_Z 128) with 128 in Ha, Hb.
  rewrite Hm in Ha, Hb. lra.
Qed.

End ExactRoundTrip.

(** ** The dump *)

Section Dump.

Local Open Scope string_scope.

Lemma append_assoc (a b c : string) : (a ++ b) ++ c = a ++ b ++ c.
Proof. induction a as [|x a IH]; simpl; [reflexivity | rewrite IH; reflexivity]. Qed.

Lemma concat_app (sep : string) (l1 l2 : list string) :
  l1 <> [] -> l2 <> [] ->
  String.concat sep (l1 ++ l2) = String.concat sep l1 ++ sep ++ String.concat sep l2.
Proof.
  intros H1 H2. induction l1 as [|x l1 IH]; [congruence|].
  destruct l1 as [|y l1].
  - destruct l2 as [|z l2]; [congruence | reflexivity].
  - change (String.concat sep ((x :: y :: l1) ++ l2))
      with (x ++ sep ++ String.concat sep ((y :: l1) ++ l2)).
    rewrite IH by discriminate.
    change (String.concat sep (x :: y :: l1)) with (x ++ sep ++ String.concat sep (y :: l1)).
    rewrite !append_assoc. reflexivity.
Qed.

(** Joining joined pieces is joining all their parts. *)
Lemma concat_flatten (sep : string) (ls : list (list string)) :
  Forall (fun l => l <> []) ls ->
  String.concat sep (map (String.concat sep) ls) = String.concat sep (List.concat ls).
Proof.
  induction 1 as [|l ls Hl Hls IH]; [reflexivity|].
  destruct ls as [|l' ls].
  - simpl. rewrite app_nil_r. reflexivity.
  - change (String.concat sep (map (String.concat sep) (l :: l' :: ls)))
      with (String.concat sep l ++ sep
            ++ String.concat sep (map (String.concat sep) (l' :: ls))).
    rewrite IH. change (List.concat (l :: l' :: ls)) with (l ++ List.concat (l' :: ls))%list.
    rewrite concat_app; [reflexivity | exact Hl |].
    inversion Hls as [|? ? Hl' _]. destruct l'; [congruence | discriminate].
Qed.

Lemma rows_flatten (rows : list tuning_tuple) :
  rows <> [] ->
  String.concat " " (map hex_row rows)
  = String.concat " " (map to_hex (flat_map tuple_numbers rows)).
Proof.
  intro Hne.
  assert (E1 : map hex_row rows
               = map (String.concat " ") (map (fun r => map to_hex (tuple_numbers r)) rows)).
  { rewrite map_map. apply map_ext. intros [[[a b] c] d]. reflexivity. }
  assert (E2 : map to_hex (flat_map tuple_numbers rows)
               = List.concat (map (fun r => map to_hex (tuple_numbers r)) rows)).
  { clear. induction rows as [|r rows IH]; [reflexivity|].
    simpl. rewrite map_app, IH. reflexivity. }
  rewrite E1, E2. apply concat_flatten.
  apply Forall_map. apply Forall_forall. intros [[[a b] c] d] _. discriminate.
Qed.

(** With blanks between the parts, the dump of a message with at least
    one tuple is its numbers, in order, each through [to_hex]. *)
Lemma hex_print_message_numbers (m : message) :
  tuples m <> [] ->
  hex_print_message " " m = String.concat " " (map to_hex (message_numbers m)).
Proof.
  intro Hne. unfold hex_print_message, message_numbers.
  rewrite (rows_flatten (tuples m) Hne).
  set (rows := map to_hex (flat_map tuple_numbers (tuples m))).
  assert (Hrows : rows <> []).
  { unfold rows. destruct (tuples m) as [|[[[a b] c] d] l]; [congruence | discriminate]. }
  change (String.concat " " (map (String.concat " ")
            [ map to_hex [fst (header m); snd (header m)]; [to_hex (device m)];
              map to_hex [fst (sub_ids m); snd (sub_ids m)]; [to_hex (program m)];
              [to_hex (count m)]; rows; [to_hex (eom m)] ])
          = String.concat " " (map to_hex
              ([fst (header m); snd (header m); device m; fst (sub_ids m);
                snd (sub_ids m); program m; count m]
               ++ flat_map tuple_numbers (tuples m) ++ [eom m])%list)).
  rewrite concat_flatten.
  - rewrite !map_app. reflexivity.
  - repeat (constructor; [first [discriminate | exact Hrows]|]). constructor.
Qed.

(** A number from 0 to 255 is written as one pair of hexadecimal digits. *)
Lemma to_hex_byte (n : Z) :
  (0 <= n <= 255)%Z -> String.length (to_hex n) = 2%nat.
Proof.
  intro Hn.
  assert (Hall : forallb (fun k => Nat.eqb (String.length (to_hex k)) 2) (Py.range 0 256) = true)
    by (vm_compute; reflexivity).
  rewrite forallb_forall in Hall.
  apply Nat.eqb_eq. apply Hall. apply PyFacts.range_In. lia.
Qed.

End Dump.

(** ** Messages on the wire *)

Section Layout.

Context {A : Type} `{Cents A}.

Lemma message_of_numbers (dev prog : Z) (buffer : list tuning_tuple) :
  message_numbers (message_of dev prog buffer)
  = [240; 127; dev; 8; 2; prog; Py.len buffer] ++ flat_map tuple_numbers buffer ++ [247].
Proof. reflexivity. Qed.

Lemma tuple_numbers_length (buffer : list tuning_tuple) :
  Py.len (flat_map tuple_numbers buffer) = 4 * Py.len buffer.
Proof.
  induction buffer as [|[[[a b] c] d] buffer IH]; [reflexivity|].
  cbn [flat_map tuple_numbers]. rewrite PyFacts.len_app, IH.
  unfold Py.len. simpl List.length. lia.
Qed.

(** Every message the batcher returns is cut well: built by [message_of]
    around one to 127 tuples, and no more than the limit. *)
Lemma batcher_well_cut
      (fuel : nat) (names : list string) (offsets : list offset)
      (ref : reference_note) (note_range : Z * Z) (dev prog : Z)
      (range : list Z) (npm : Z) (messages : list message) :
  make_mts_messages_per_note_rt fuel names offsets ref note_range dev prog range npm
  = Return messages ->
  Forall (well_cut dev prog npm 127) messages.
Proof.
  unfold make_mts_messages_per_note_rt.
  destruct (tuning_tuples_of names offsets ref range) as [tt| |]; cbn [bind];
    try discriminate.
  destruct (Py.len tt >? 127) eqn:E; [discriminate|].
  rewrite Z.gtb_ltb in E. apply Z.ltb_ge in E.
  intro Hrun.
  exact (messages_while_well_cut fuel dev prog npm 127 tt [] messages E
           (Forall_nil _) Hrun).
Qed.

End Layout.

(** C2: every message the batcher returns reads F0 7F, the device, 08 02,
    the program, the count, four numbers per tuple and F7, the count being
    the number of tuples, so that it has 8 + 4 * count numbers, which the dump
    writes in this order; and the equal-temperament scale over the range
    60 to 60 for device 127, program 0 is dumped as
    F0 7F 7F 08 02 00 01 3C 3C 00 00 F7, on rationals and on binary64. *)
Theorem message_layout :
  (forall (A : Type) (C : Cents A)
          (fuel : nat) (names : list string) (offsets : list (@offset A))
          (ref : reference_note) (note_range : Z * Z) (dev prog : Z)
          (range : list Z) (npm : Z) (messages : list message),
      make_mts_messages_per_note_rt fuel names offsets ref note_range dev prog range npm
      = Return messages ->
      Forall (fun m =>
                message_numbers m
                = [240; 127; dev; 8; 2; prog; count m]
                    ++ flat_map tuple_numbers (tuples m) ++ [247]
                /\ count m = Py.len (tuples m)
                /\ 1 <= count m <= 127
                /\ Py.len (message_numbers m) = 8 + 4 * count m
                /\ hex_print_message " " m
                   = String.concat " " (map to_hex (message_numbers m)))
             messages)
  /\ (forall fuel,
        main (S fuel) (default_arguments (@equal_temperament_scale Q _) (Some (60, 60)) 127)
        = Return "F0 7F 7F 08 02 00 01 3C 3C 00 00 F7"%string)
  /\ (forall fuel,
        main (S fuel) (default_arguments (@equal_temperament_scale float _) (Some (60, 60)) 127)
        = Return "F0 7F 7F 08 02 00 01 3C 3C 00 00 F7"%string).
Proof.
  split; [|split].
  - intros A C fuel names offsets ref note_range dev prog range npm messages Hrun.
    apply batcher_well_cut in Hrun.
    apply Forall_forall. intros m Hm.
    rewrite Forall_forall in Hrun. destruct (Hrun m Hm) as (Em & Hne & _ & Hmost).
    assert (Hc : count m = Py.len (tuples m)) by (rewrite Em; reflexivity).
    assert (Hn : message_numbers m
                 = [240; 127; dev; 8; 2; prog; count m]
                     ++ flat_map tuple_numbers (tuples m) ++ [247]).
    { rewrite Hc. rewrite Em at 1. apply message_of_numbers. }
    split; [exact Hn|]. split; [exact Hc|]. split; [|split].
    + pose proof (PyFacts.len_nonneg (tuples m)).
      assert (Py.len (tuples m) <> 0) by (intro E; apply PyFacts.len_nil_iff in E; auto).
      lia.
    + rewrite Hn, !PyFacts.len_app, tuple_numbers_length, Hc.
      change (Py.len [240; 127; dev; 8; 2; prog; Py.len (tuples m)]) with 7.
      change (Py.len [247]) with 1. lia.
    + apply hex_print_message_numbers. exact Hne.
  - intro fuel. destruct fuel; reflexivity.
  - intro fuel. destruct fuel; reflexivity.
Qed.

(** C3 at a failing input: 799/1024 of a cent is in [0, 100), and the
    encoder raises its internal error on it, the last byte being rounded to
    128; on rationals and on binary64 alike. *)
Theorem make_mts_tuple_internal_error :
  make_mts_tuple (A:=Q) 60 0 (799 # 1024)
  = Raise (Exception "internal error: tuning offset data exceeded maximum MIDI value")
  /\ make_mts_tuple (A:=float) 60 0 0.7802734375%float
     = Raise (Exception "internal error: tuning offset data exceeded maximum MIDI value")
  /\ fround (fmul (fsub (midi_fraction (799 # 1024)%Q)
                        (of_int (ffloor (midi_fraction (799 # 1024)%Q))))
                  (of_int 128)) = 128.
Proof. repeat split; vm_compute; reflexivity. Qed.

(** C6 as stated fails: a range of 200 notes with a limit of 127, every step
    set and the 128 notes from 0 to 127 encoding, stops with the error. *)
Lemma two_hundred_notes_raise :
  main_messages 2 (default_arguments (@equal_temperament_scale Q _) (Some (0, 199)) 127)
  = Raise (Exception "Too many notes to tune in one message.").
Proof. vm_compute. reflexivity. Qed.

(** C8 at failing inputs: ten notes with a limit of five pass the check of
    [main] and come out as two messages, and one note with a limit of one is
    refused: the check compares the limit with the length of the pair of
    bounds, which is two. *)
Theorem range_check_counts_bounds :
  (exists first second,
      main_messages 2 (default_arguments (@equal_temperament_scale Q _) (Some (0, 9)) 5)
      = Return [first; second]
      /\ count first = 5 /\ count second = 5)
  /\ (forall fuel,
        main_messages fuel (default_arguments (@equal_temperament_scale Q _) (Some (60, 60)) 1)
        = Raise (Exception "Too many notes per message for a given range. Try decreasing.")).
Proof.
  split.
  - eexists. eexists. split; [vm_compute; reflexivity|]. split; reflexivity.
  - intro fuel. reflexivity.
Qed.

(** C9 at a failing input: with the first step set and the third unset, the
    running sum stops on the name that is not bound. *)
Theorem stepwise_unset_raises :
  stepwise_from_root (A:=Q)
    [Some 0%Q; Some 100%Q; None; Some 100%Q; Some 100%Q; Some 100%Q;
     Some 100%Q; Some 100%Q; Some 100%Q; Some 100%Q; Some 100%Q; Some 100%Q]
  = Raise (NameError "new_scape")
  /\ main 2 (mkArguments
               [Some 0%float; Some 100%float; None; Some 100%float; Some 100%float;
                Some 100%float; Some 100%float; Some 100%float; Some 100%float;
                Some 100%float; Some 100%float; Some 100%float]
               "C" true 127 0 false (Some (60, 71)) 127 None)
     = Raise (NameError "new_scape").
Proof. split; reflexivity. Qed.

(** ** The statements at concrete inputs *)

Lemma equal_temperament_encodes (note_id : Z) :
  0 <= note_id <= 127 ->
  exists s d t,
    Py.index equal_temperament_offsets
             ((note_id + (ID midi_reference_note + 0) mod Py.len notes) mod Py.len notes)
    = Return (Some (s, d))
    /\ make_mts_tuple note_id s d = Return t.
Proof.
  intro Hn. exists 0, 0%Q, (note_id, 0, 0). split.
  - change ((ID midi_reference_note + 0) mod Py.len notes) with 0.
    change (Py.len notes) with 12.
    set (j := (note_id + 0) mod 12).
    assert (Hj : 0 <= j < 12) by (apply Z.mod_pos_bound; lia).
    assert (E : j = 0 \/ j = 1 \/ j = 2 \/ j = 3 \/ j = 4 \/ j = 5 \/ j = 6
                \/ j = 7 \/ j = 8 \/ j = 9 \/ j = 10 \/ j = 11) by lia.
    repeat (destruct E as [E|E]; [rewrite E; reflexivity|]). rewrite E. reflexivity.
  - apply make_mts_tuple_returns. repeat split; try reflexivity; lia.
Qed.

Lemma too_many_tuples_raise_witness :
  make_mts_messages_per_note_rt 0 notes equal_temperament_offsets midi_reference_note
                                midi_note_range 127 0 [0; 127] 127
  = Raise (Exception "Too many notes to tune in one message.").
Proof.
  eapply too_many_tuples_raise.
  - vm_compute. reflexivity.
  - vm_compute. reflexivity.
Defined.

Lemma default_range_all_encode_raises_witness :
  make_mts_messages_per_note_rt 1 notes equal_temperament_offsets midi_reference_note
                                midi_note_range 127 0 [0; 127] 127
  = Raise (Exception "Too many notes to tune in one message.").
Proof.
  apply (default_range_all_encode_raises 1 notes equal_temperament_offsets
           midi_reference_note midi_note_range 127 0 127 0).
  - reflexivity.
  - exact equal_temperament_encodes.
Defined.

Lemma nonpositive_limit_never_returns_witness :
  never_returns (fun fuel => messages_while fuel 127 0 0 [(60, 60, 0, 0)] [])
  /\ never_returns (fun fuel =>
       make_mts_messages_per_note_rt fuel notes equal_temperament_offsets
                                     midi_reference_note midi_note_range 127 0 [60; 60] 0)
  /\ (9 - bytes_header) / bytes_per_note = 0.
Proof.
  destruct (nonpositive_limit_never_returns (A:=Q) notes equal_temperament_offsets
              midi_reference_note midi_note_range 127 0 [60; 60] 0 [(60, 60, 0, 0)])
    as (Hloop & Hall & Hbytes).
  - lia.
  - discriminate.
  - split; [exact Hloop|]. split.
    + apply Hall; [reflexivity | vm_compute; discriminate].
    + apply Hbytes. lia.
Defined.

Lemma two_messages_witness :
  exists first second,
    make_mts_messages_per_note_rt 2 notes equal_temperament_offsets midi_reference_note
                                  midi_note_range 127 0 [0; 99] 60
    = Return [first; second]
    /\ count first = 60 /\ count second = 40.
Proof.
  destruct (two_messages (A:=Q) 0 notes equal_temperament_offsets midi_reference_note
              midi_note_range 127 0 [0; 99] 60
              (map (fun n => (n, n, 0, 0)) (Py.range 0 100)))
    as (first & second & Hrun & _ & _ & Hc1 & Hc2 & _).
  - vm_compute. reflexivity.
  - vm_compute. reflexivity.
  - vm_compute. discriminate.
  - vm_compute. discriminate.
  - exists first, second. split; [exact Hrun|]. split; [exact Hc1|].
    rewrite Hc2. vm_compute. reflexivity.
Defined.


Lemma message_layout_witness :
  Forall (fun m => Py.len (message_numbers m) = 8 + 4 * count m
                   /\ hex_print_message " " m
                      = String.concat " " (map to_hex (message_numbers m)))
         [message_of 127 0 [(60, 60, 0, 0)]].
Proof.
  assert (Hrun : make_mts_messages_per_note_rt 1 notes equal_temperament_offsets
                   midi_reference_note midi_note_range 127 0 [60; 60] 127
                 = Return [message_of 127 0 [(60, 60, 0, 0)]]) by reflexivity.
  pose proof (proj1 message_layout Q _ _ _ _ _ _ _ _ _ _ _ Hrun) as Hall.
  apply Forall_forall. intros m Hm. rewrite Forall_forall in Hall.
  destruct (Hall m Hm) as (_ & _ & _ & Hlen & Hdump). split; assumption.
Defined.

(** ** The batcher: what the messages hold *)

Section Partition.

Context {A : Type} `{Cents A}.

Lemma take_drop {T : Type} (n : Z) (l : list T) : Py.take n l ++ Py.drop n l = l.
Proof. unfold Py.take, Py.drop. apply firstn_skipn. Qed.

Lemma messages_while_content (fuel : nat) :
  forall (dev prog npm : Z) (tuning_tuples : list tuning_tuple)
         (messages out : list message),
    messages_while fuel dev prog npm tuning_tuples messages = Return out ->
    List.concat (map tuples out) = List.concat (map tuples messages) ++ tuning_tuples.
Proof.
  induction fuel as [|fuel IH]; intros dev prog npm tt msgs out Hrun.
  - destruct tt; simpl in Hrun; [|discriminate].
    injection Hrun as <-. rewrite app_nil_r. reflexivity.
  - destruct tt as [|t tt].
    + simpl in Hrun. injection Hrun as <-. rewrite app_nil_r. reflexivity.
    + rewrite messages_while_step in Hrun by discriminate.
      apply IH in Hrun. rewrite Hrun, map_app, List.concat_app. simpl.
      rewrite app_nil_r, <- app_assoc, take_drop. reflexivity.
Qed.

Lemma messages_while_total (fuel : nat) :
  forall (dev prog npm : Z) (tuning_tuples : list tuning_tuple) (messages : list message),
    0 < npm ->
    (List.length tuning_tuples <= fuel)%nat ->
    exists out,
      messages_while fuel dev prog npm tuning_tuples messages = Return out
      /\ Py.len out = Py.len messages + (Py.len tuning_tuples + npm - 1) / npm.
Proof.
  induction fuel as [|fuel IH]; intros dev prog npm tt msgs Hn Hf.
  - destruct tt; [|simpl in Hf; lia].
    exists msgs. split; [reflexivity|].
    change (Py.len (@nil tuning_tuple)) with 0. rewrite Z.div_small by lia. lia.
  - destruct tt as [|t tt].
    + exists msgs. split; [reflexivity|].
      change (Py.len (@nil tuning_tuple)) with 0. rewrite Z.div_small by lia. lia.
    + rewrite messages_while_step by discriminate.
      set (l := t :: tt) in *.
      assert (Hl : 1 <= Py.len l) by (unfold Py.len, l; simpl List.length; lia).
      destruct (Z_le_gt_dec (Py.len l) npm) as [Hle|Hgt].
      * destruct (take_all npm l Hn Hle) as [_ Ed]. rewrite Ed.
        rewrite messages_while_done. eexists. split; [reflexivity|].
        rewrite PyFacts.len_app. change (Py.len [_]) with 1.
        assert (E : (Py.len l + npm - 1) / npm = 1).
        { symmetry. apply (Z.div_unique _ _ 1 (Py.len l - 1)); lia. }
        lia.
      * assert (Hd : Py.len (Py.drop npm l) = Py.len l - npm)
          by (apply drop_length; lia).
        destruct (IH dev prog npm (Py.drop npm l)
                     (msgs ++ [message_of dev prog (Py.take npm l)]) Hn)
          as (out & Hrun & Hlen).
        { unfold Py.len in Hd, Hf. simpl List.length in Hf. unfold l in Hd.
          simpl List.length in Hd. fold l in Hd. unfold Py.len in Hgt. lia. }
        exists out. split; [exact Hrun|].
        rewrite Hlen, PyFacts.len_app, Hd. change (Py.len [_]) with 1.
        replace (Py.len l + npm - 1) with ((Py.len l - npm + npm - 1) + 1 * npm) by lia.
        rewrite Z.div_add by lia. lia.
Qed.

(** X1: when the batcher returns, its messages hold the collected tuples,
    all of them, once each and in their order. *)
Theorem batcher_keeps_every_tuple
        (fuel : nat) (names : list string) (offsets : list offset)
        (ref : reference_note) (note_range : Z * Z) (dev prog : Z)
        (range : list Z) (npm : Z) (messages : list message) :
  make_mts_messages_per_note_rt fuel names offsets ref note_range dev prog range npm
  = Return messages ->
  exists tuning_tuples,
    tuning_tuples_of names offsets ref range = Return tuning_tuples
    /\ List.concat (map tuples messages) = tuning_tuples
    /\ Py.len tuning_tuples <= 127.
Proof.
  unfold make_mts_messages_per_note_rt.
  destruct (tuning_tuples_of names offsets ref range) as [tt| |]; cbn [bind];
    try discriminate.
  destruct (Py.len tt >? 127) eqn:E; [discriminate|].
  rewrite Z.gtb_ltb in E. apply Z.ltb_ge in E.
  intro Hrun. exists tt. split; [reflexivity|]. split; [|exact E].
  apply messages_while_content in Hrun. exact Hrun.
Qed.

(** X2: with a positive limit and at most 127 tuples the batcher returns as
    soon as the fuel covers one pass per tuple, and it returns the number of
    tuples divided by the limit, rounded up, messages; each has from one to
    limit tuples, its count, and the device and program asked for. *)
Theorem batcher_cuts_into_chunks
        (fuel : nat) (names : list string) (offsets : list offset)
        (ref : reference_note) (note_range : Z * Z) (dev prog : Z)
        (range : list Z) (npm : Z) (tuning_tuples : list tuning_tuple) :
  tuning_tuples_of names offsets ref range = Return tuning_tuples ->
  Py.len tuning_tuples <= 127 ->
  0 < npm ->
  (List.length tuning_tuples <= fuel)%nat ->
  exists messages,
    make_mts_messages_per_note_rt fuel names offsets ref note_range dev prog range npm
    = Return messages
    /\ Py.len messages = (Py.len tuning_tuples + npm - 1) / npm
    /\ Forall (fun m => 1 <= count m <= npm
                        /\ count m = Py.len (tuples m)
                        /\ device m = dev /\ program m = prog
                        /\ header m = (240, 127) /\ sub_ids m = (8, 2) /\ eom m = 247)
              messages.
Proof.
  intros Ht Hmax Hn Hf.
  destruct (messages_while_total fuel dev prog npm tuning_tuples [] Hn Hf)
    as (out & Hrun & Hlen).
  exists out. rewrite (at_most_127_splits _ _ _ _ _ _ _ _ _ _ Ht Hmax).
  split; [exact Hrun|]. split; [rewrite Hlen; reflexivity|].
  pose proof (messages_while_well_cut fuel dev prog npm 127 tuning_tuples [] out Hmax
                (Forall_nil _) Hrun) as Hcut.
  apply Forall_forall. intros m Hm. rewrite Forall_forall in Hcut.
  destruct (Hcut m Hm) as (Em & Hne & Hle & _).
  assert (Hc : count m = Py.len (tuples m)) by (rewrite Em; reflexivity).
  pose proof (PyFacts.len_nonneg (tuples m)).
  assert (Py.len (tuples m) <> 0) by (intro E; apply PyFacts.len_nil_iff in E; auto).
  repeat split; try (rewrite Em; reflexivity); lia.
Qed.

(** *** The loop over the notes *)

Lemma tuples_for_filter (offsets : list offset) (start modulus : Z) (note_ids : list Z) :
  forall tuning_tuples,
    tuples_for offsets start modulus note_ids = Return tuning_tuples ->
    map note_of tuning_tuples = filter (encodes offsets start modulus) note_ids
    /\ Forall (fun row =>
                 let '(note_id, semitone, msb, lsb) := row in
                 exists s d,
                   Py.index offsets ((note_id + start) mod modulus) = Return (Some (s, d))
                   /\ make_mts_tuple note_id s d = Return (semitone, msb, lsb))
              tuning_tuples.
Proof.
  induction note_ids as [|n note_ids IH]; intros tt Hrun.
  - injection Hrun as <-. split; [reflexivity | constructor].
  - cbn [tuples_for] in Hrun. cbn [filter]. unfold encodes at 1.
    revert Hrun.
    destruct (Py.index offsets ((n + start) mod modulus)) as [[[s d]|]| |] eqn:Ei;
      cbn [bind]; try discriminate.
    + destruct (make_mts_tuple n s d) as [[[a b] l]| |] eqn:Em.
      * destruct (tuples_for offsets start modulus note_ids) as [rest| |];
          cbn [bind]; try discriminate.
        intro Hrun. injection Hrun as <-. destruct (IH rest eq_refl) as [Hids Hall].
        split; [cbn [map note_of fst]; rewrite Hids; reflexivity|].
        constructor; [|exact Hall]. exists s, d. split; [exact Ei | exact Em].
      * apply IH.
      * apply IH.
    + apply IH.
Qed.

End Partition.

Section Collected.

Context {A : Type} `{Cents A}.

(** X3: the tuples collected for a range are those of the notes of the
    range, in rising order, whose table entry is set and encodes; each holds
    the note, the note moved by the entry's steps, and two fraction bytes,
    the last three being MIDI data bytes. *)
Theorem collected_tuples_are_the_encodable_notes
        (names : list string) (offsets : list offset) (ref : reference_note)
        (bottom top k : Z) (tuning_tuples : list tuning_tuple) :
  Py.index_of (note ref) names = Return k ->
  tuning_tuples_of names offsets ref [bottom; top] = Return tuning_tuples ->
  let start := (ID ref + k) mod Py.len names in
  map note_of tuning_tuples
  = filter (encodes offsets start (Py.len names)) (Py.range bottom (top + 1))
  /\ Forall (fun row =>
               let '(note_id, semitone, msb, lsb) := row in
               bottom <= note_id <= top
               /\ 0 <= semitone <= 127 /\ 0 <= msb <= 127 /\ 0 <= lsb <= 127
               /\ exists s d,
                    Py.index offsets ((note_id + start) mod Py.len names)
                    = Return (Some (s, d))
                    /\ semitone = note_id + s)
            tuning_tuples.
Proof.
  intros Hk Hrun start. unfold tuning_tuples_of in Hrun. rewrite Hk in Hrun.
  cbn [bind] in Hrun.
  change (Py.index [bottom; top] 0) with (Return bottom) in Hrun.
  change (Py.index [bottom; top] 1) with (Return top) in Hrun.
  cbn [bind] in Hrun. fold start in Hrun.
  destruct (tuples_for_filter offsets start (Py.len names) _ _ Hrun) as [Hids Hall].
  split; [exact Hids|].
  apply Forall_forall. intros [[[n a] b] l] Hin.
  rewrite Forall_forall in Hall. destruct (Hall _ Hin) as (s & d & Hi & Hm).
  apply make_mts_tuple_returns in Hm.
  destruct Hm as (Ea & _ & _ & _ & Ha & Hb & Hl).
  assert (Hn : In n (map note_of tuning_tuples))
    by (apply in_map_iff; exists (n, a, b, l); split; [reflexivity | exact Hin]).
  rewrite Hids in Hn. apply filter_In in Hn. destruct Hn as [Hn _].
  apply PyFacts.range_In in Hn.
  split; [lia|]. split; [exact Ha|]. split; [exact Hb|]. split; [exact Hl|].
  exists s, d. split; [exact Hi | exact Ea].
Qed.

Lemma tuples_for_unset (offsets : list offset) (start modulus : Z) (note_ids : list Z) :
  (forall note_id, In note_id note_ids ->
     Py.index offsets ((note_id + start) mod modulus) = Return None) ->
  tuples_for offsets start modulus note_ids = Return [].
Proof.
  induction note_ids as [|n note_ids IH]; intro Hall; [reflexivity|].
  cbn [tuples_for]. rewrite (Hall n (or_introl eq_refl)). cbn [bind].
  apply IH. intros m Hm. apply Hall. right. exact Hm.
Qed.

(** X4: nothing to retune gives no message and no error, whatever the fuel
    and the limit, a limit of zero or less included: when the range is empty
    (its top below its bottom), and when every entry the notes of the range
    look up is unset. *)
Theorem nothing_to_tune_no_message
        (fuel : nat) (names : list string) (offsets : list offset)
        (ref : reference_note) (note_range : Z * Z) (dev prog bottom top npm k : Z) :
  Py.index_of (note ref) names = Return k ->
  top < bottom
  \/ (forall note_id, bottom <= note_id <= top ->
        Py.index offsets ((note_id + (ID ref + k) mod Py.len names) mod Py.len names)
        = Return None) ->
  make_mts_messages_per_note_rt fuel names offsets ref note_range dev prog
                                [bottom; top] npm
  = Return [].
Proof.
  intros Hk Hcase.
  assert (Ht : tuning_tuples_of names offsets ref [bottom; top] = Return []).
  { unfold tuning_tuples_of. rewrite Hk. cbn [bind].
    change (Py.index [bottom; top] 0) with (Return bottom).
    change (Py.index [bottom; top] 1) with (Return top). cbn [bind].
    apply tuples_for_unset. intros n Hn. apply PyFacts.range_In in Hn.
    destruct Hcase as [Hlt|Hall]; [lia|]. apply Hall. lia. }
  unfold make_mts_messages_per_note_rt. rewrite Ht. cbn [bind].
  change (Py.len (@nil tuning_tuple) >? 127) with false. cbv iota.
  apply messages_while_done.
Qed.

End Collected.

(** ** main *)

Section MainFacts.

Context {A : Type} `{Cents A}.

(** What a returning [main_messages] went through. *)
Lemma main_messages_returns (fuel : nat) (args : arguments) (messages : list message) :
  main_messages fuel args = Return messages ->
  2 <= notes_per_message args
  /\ exists names cents offsets,
       rotate_notes notes (starting_note args) = Return names
       /\ (if from_each_other args then stepwise_from_root (scale args)
           else Return (scale args)) = Return cents
       /\ offsets_from_another_scale fuel cents eqtemp12_cents = Return offsets
       /\ make_mts_messages_per_note_rt fuel names offsets midi_reference_note
            midi_note_range (device_id args) (tuning_bank args)
            (match tuning_range args with
             | None => [0; 127]
             | Some (bottom, top) => [bottom; top]
             end)
            (match bytes_per_message args with
             | Some b => (b - bytes_header) / bytes_per_note
             | None => notes_per_message args
             end)
          = Return messages.
Proof.
  unfold main_messages.
  set (range := match tuning_range args with
                | None => [0; 127]
                | Some (bottom, top) => [bottom; top]
                end).
  assert (Hlen : Py.len range = 2) by (unfold range; destruct (tuning_range args) as [[b t]|]; reflexivity).
  rewrite Hlen.
  destruct (2 >? notes_per_message args) eqn:E; [discriminate|].
  rewrite Z.gtb_ltb in E. apply Z.ltb_ge in E.
  destruct (rotate_notes notes (starting_note args)) as [names| |] eqn:E1; cbn [bind];
    try discriminate.
  destruct (if from_each_other args then stepwise_from_root (scale args)
            else Return (scale args)) as [cents| |] eqn:E2; cbn [bind]; try discriminate.
  destruct (offsets_from_another_scale fuel cents eqtemp12_cents) as [offsets| |] eqn:E3;
    cbn [bind]; try discriminate.
  intro Hrun. split; [exact E|]. exists names, cents, offsets.
  split; [reflexivity|]. split; [reflexivity|]. split; [exact E3 | exact Hrun].
Qed.

(** X5: with a byte limit, no message [main] obtains is longer than the
    limit: each has 8 + 4 * count numbers and at most the limit. *)
Theorem byte_limit_is_kept (fuel : nat) (args : arguments) (b : Z)
        (messages : list message) :
  bytes_per_message args = Some b ->
  main_messages fuel args = Return messages ->
  Forall (fun m => Py.len (message_numbers m) = 8 + 4 * count m
                   /\ Py.len (message_numbers m) <= b)
         messages.
Proof.
  intros Hb Hrun. apply main_messages_returns in Hrun.
  destruct Hrun as (_ & names & cents & offsets & _ & _ & _ & Hrun).
  rewrite Hb in Hrun. apply batcher_well_cut in Hrun.
  apply Forall_forall. intros m Hm. rewrite Forall_forall in Hrun.
  destruct (Hrun m Hm) as (Em & _ & Hle & _).
  assert (Hlen : Py.len (message_numbers m) = 8 + 4 * Py.len (tuples m)).
  { rewrite Em at 1. rewrite message_of_numbers, !PyFacts.len_app, tuple_numbers_length.
    change (Py.len [240; 127; device_id args; 8; 2; tuning_bank args; Py.len (tuples m)])
      with 7.
    change (Py.len [247]) with 1. lia. }
  assert (Hc : count m = Py.len (tuples m)) by (rewrite Em; reflexivity).
  split; [rewrite Hc; exact Hlen|].
  rewrite Hlen. unfold bytes_header, bytes_per_note in Hle.
  pose proof (Z.mul_div_le (b - 8) 4 ltac:(lia)). lia.
Qed.

(** X6: a limit below two notes per message is refused by [main] before
    anything else is looked at: the range, the scale, the starting note and
    a byte limit, which would replace the limit, play no part. *)
Theorem limit_below_two_is_refused (fuel : nat) (args : arguments) :
  notes_per_message args < 2 ->
  main_messages fuel args
  = Raise (Exception "Too many notes per message for a given range. Try decreasing.")
  /\ main fuel args
     = Raise (Exception "Too many notes per message for a given range. Try decreasing.").
Proof.
  intro Hn.
  assert (E : main_messages fuel args
              = Raise (Exception "Too many notes per message for a given range. Try decreasing.")).
  { unfold main_messages.
    assert (Hlen : Py.len (match tuning_range args with
                           | None => [0; 127]
                           | Some (bottom, top) => [bottom; top]
                           end) = 2)
      by (destruct (tuning_range args) as [[b t]|]; reflexivity).
    rewrite Hlen.
    destruct (2 >? notes_per_message args) eqn:E; [reflexivity|].
    rewrite Z.gtb_ltb in E. apply Z.ltb_ge in E. lia. }
  split; [exact E|]. unfold main. rewrite E. reflexivity.
Qed.

End MainFacts.

(** ** The note names *)

Section NoteNames.

Lemma index_of_returns (x : string) (l : list string) :
  forall k, Py.index_of x l = Return k ->
    0 <= k < Py.len l
    /\ nth_error l (Z.to_nat k) = Some x
    /\ forall j, (j < Z.to_nat k)%nat -> nth_error l j <> Some x.
Proof.
  induction l as [|y l IH]; intros k Hk; [discriminate|].
  cbn [Py.index_of] in Hk. destruct (String.eqb y x) eqn:E.
  - injection Hk as <-. apply String.eqb_eq in E. subst y.
    split; [unfold Py.len; simpl List.length; lia|]. split; [reflexivity|].
    intros j Hj. simpl in Hj. lia.
  - destruct (Py.index_of x l) as [k'| |]; cbn [bind] in Hk; try discriminate.
    injection Hk as <-. destruct (IH k' eq_refl) as (Hk' & Hn & Hfirst).
    apply String.eqb_neq in E.
    replace (Z.to_nat (k' + 1)) with (S (Z.to_nat k')) by lia.
    split; [unfold Py.len in *; simpl List.length; lia|]. split; [exact Hn|].
    intros [|j] Hj; simpl; [congruence|]. apply Hfirst. lia.
Qed.

Lemma index_of_raises (x : string) (l : list string) :
  ~ In x l -> Py.index_of x l = Raise ValueError.
Proof.
  induction l as [|y l IH]; intro Hn; [reflexivity|].
  cbn [Py.index_of]. destruct (String.eqb y x) eqn:E.
  - apply String.eqb_eq in E. exfalso. apply Hn. left. exact E.
  - rewrite IH; [reflexivity|]. intro Hin. apply Hn. right. exact Hin.
Qed.

Lemma skipn_nth_error {T : Type} (l : list T) :
  forall i x, nth_error l i = Some x -> exists rest, skipn i l = x :: rest.
Proof.
  induction l as [|y l IH]; intros [|i] x E; try discriminate.
  - injection E as <-. exists l. reflexivity.
  - simpl. apply IH. exact E.
Qed.

(** X7: [rotate_notes] finds the starting note, in upper case, at its first
    place in the list and returns the list turned so that it starts there:
    the same names, as many, the starting note first.  A name that is not in
    the list raises [ValueError]. *)
Theorem rotate_notes_turns_the_list (names : list string) (start : string) :
  (forall rotated,
      rotate_notes names start = Return rotated ->
      exists i : nat,
        nth_error names i = Some (upper start)
        /\ (forall j, (j < i)%nat -> nth_error names j <> Some (upper start))
        /\ rotated = skipn i names ++ firstn i names
        /\ Permutation names rotated
        /\ hd_error rotated = Some (upper start))
  /\ (~ In (upper start) names -> rotate_notes names start = Raise ValueError).
Proof.
  split.
  - intros rotated Hrun. unfold rotate_notes in Hrun.
    destruct (Py.index_of (upper start) names) as [i| |] eqn:Ei; cbn [bind] in Hrun;
      try discriminate.
    injection Hrun as <-.
    destruct (index_of_returns _ _ _ Ei) as (Hi & Hn & Hfirst).
    exists (Z.to_nat i). split; [exact Hn|]. split; [exact Hfirst|].
    assert (Er : Py.drop i names ++ Py.take i names
                 = skipn (Z.to_nat i) names ++ firstn (Z.to_nat i) names).
    { unfold Py.drop, Py.take. rewrite PyFacts.bound_positive by lia. reflexivity. }
    rewrite Er. split; [reflexivity|]. split.
    + rewrite <- (firstn_skipn (Z.to_nat i) names) at 1. apply Permutation_app_comm.
    + destruct (skipn_nth_error names _ _ Hn) as (rest & Es). rewrite Es. reflexivity.
  - intro Hn. unfold rotate_notes. rewrite index_of_raises by exact Hn. reflexivity.
Qed.

(** X8: however the notes are rotated, the batcher looks up for a MIDI note
    the step of the scale that carries the note's own name: with the names
    [rotate_notes] returns and the reference note C at 60, the index it
    computes for note [n] holds the name of [n mod 12] in the chromatic
    scale from C. *)
Theorem scale_steps_follow_note_names (start : string) (names : list string) :
  rotate_notes notes start = Return names ->
  exists k,
    Py.index_of (note midi_reference_note) names = Return k
    /\ Py.len names = 12
    /\ forall n : Z,
         nth_error names
           (Z.to_nat ((n + (ID midi_reference_note + k) mod Py.len names)
                      mod Py.len names))
         = nth_error notes (Z.to_nat (n mod 12)).
Proof.
  intro Hrun. unfold rotate_notes in Hrun.
  destruct (Py.index_of (upper start) notes) as [i| |] eqn:Ei; cbn [bind] in Hrun;
    try discriminate.
  injection Hrun as <-.
  destruct (index_of_returns _ _ _ Ei) as (Hi & _ & _).
  change (Py.len notes) with 12 in Hi.
  assert (E : i = 0 \/ i = 1 \/ i = 2 \/ i = 3 \/ i = 4 \/ i = 5 \/ i = 6
              \/ i = 7 \/ i = 8 \/ i = 9 \/ i = 10 \/ i = 11) by lia.
  assert (Hcases : forall c names',
             (forall r, 0 <= r < 12 ->
                nth_error names' (Z.to_nat ((r + c) mod 12))
                = nth_error notes (Z.to_nat r)) ->
             forall n, nth_error names' (Z.to_nat ((n + c) mod 12))
                       = nth_error notes (Z.to_nat (n mod 12))).
  { intros c names' Hr n. rewrite <- Z.add_mod_idemp_l by lia.
    apply Hr. apply Z.mod_pos_bound. lia. }
  assert (Hrows : forall c names',
             forallb (fun r => match nth_error names' (Z.to_nat ((r + c) mod 12)),
                                     nth_error notes (Z.to_nat r) with
                               | Some a, Some b => String.eqb a b
                               | _, _ => false
                               end) (Py.range 0 12) = true ->
             forall r, 0 <= r < 12 ->
               nth_error names' (Z.to_nat ((r + c) mod 12))
               = nth_error notes (Z.to_nat r)).
  { intros c names' Hall r Hr. rewrite forallb_forall in Hall.
    specialize (Hall r ltac:(apply PyFacts.range_In; lia)).
    destruct (nth_error names' _) as [a|], (nth_error notes _) as [b|];
      try discriminate.
    apply String.eqb_eq in Hall. congruence. }
  repeat (destruct E as [E|E];
          [subst i; eexists; split; [reflexivity|]; split; [reflexivity|];
           apply Hcases, Hrows; vm_compute; reflexivity|]).
  subst i; eexists; split; [reflexivity|]; split; [reflexivity|];
    apply Hcases, Hrows; vm_compute; reflexivity.
Qed.

End NoteNames.

(** ** The running sum, step by step *)

Section StepwiseFacts.

Context {A : Type} `{Cents A}.

(** X9: when all the steps are set, [stepwise_from_root] returns as many
    entries, all set: the first step as it is and then, step after step, the
    sum of the entry before and the step. *)
Theorem stepwise_is_the_running_sum (first : A) (deltas : list A) :
  stepwise_from_root (Some first :: map Some deltas)
  = Return (map Some (first :: running_sums first deltas))
  /\ List.length (first :: running_sums first deltas) = S (List.length deltas)
  /\ forall n prev d,
       nth_error (first :: running_sums first deltas) n = Some prev ->
       nth_error deltas n = Some d ->
       nth_error (first :: running_sums first deltas) (S n) = Some (fadd prev d).
Proof.
  split; [apply stepwise_from_root_all_set|]. split.
  - simpl. f_equal. revert first. induction deltas as [|d deltas IH]; intro first;
      [reflexivity | simpl; rewrite IH; reflexivity].
  - revert first. induction deltas as [|d deltas IH]; intros first n prev d' Hp Hd.
    + destruct n; discriminate.
    + destruct n as [|n].
      * injection Hp as <-. injection Hd as <-. reflexivity.
      * simpl in Hp, Hd. cbn [running_sums]. 
        change (nth_error (first :: fadd first d :: running_sums (fadd first d) deltas)
                          (S (S n)))
          with (nth_error (fadd first d :: running_sums (fadd first d) deltas) (S n)).
        apply IH; assumption.
Qed.

(** X10: an unset step anywhere after a set first step makes
    [stepwise_from_root] raise [NameError]: the branch for it names a list
    that is not there. *)
Theorem stepwise_unset_step_is_a_name_error (first : A) (rest : list (option A)) :
  In None rest ->
  stepwise_from_root (Some first :: rest) = Raise (NameError "new_scape").
Proof. apply stepwise_from_root_unset. Qed.

(** X11: the edges of [stepwise_from_root]: no step at all raises
    [IndexError]; a lone unset step is returned as it is; an unset first
    step followed by a set one raises [TypeError], the sum of nothing and a
    number; followed by an unset one it raises [NameError]. *)
Theorem stepwise_edges (d : A) (rest : list (option A)) :
  stepwise_from_root (A:=A) [] = Raise IndexError
  /\ stepwise_from_root (A:=A) [None] = Return [None]
  /\ stepwise_from_root (None :: Some d :: rest) = Raise TypeError
  /\ stepwise_from_root (None :: None :: rest) = Raise (NameError "new_scape").
Proof. repeat split; reflexivity. Qed.

End StepwiseFacts.

(** ** The encoder: what comes out *)

Section EncoderExtras.

Context {A : Type} `{Cents A}.

(** X12: whenever [make_mts_tuple] returns, the semitone is the note moved
    by the step offset, the cents were in the semitone, and semitone and both
    fraction bytes are MIDI data bytes, 0 to 127; and it returns whenever
    that is so. *)
Theorem encoder_returns_data_bytes
        (note_id step_offset : Z) (cents : A) (semitone msb lsb : Z) :
  make_mts_tuple note_id step_offset cents = Return (semitone, msb, lsb)
  <-> semitone = note_id + step_offset
      /\ in_semitone cents = true
      /\ msb = ffloor (midi_fraction cents)
      /\ lsb = fround (fmul (fsub (midi_fraction cents) (of_int msb)) (of_int 128))
      /\ 0 <= semitone <= 127 /\ 0 <= msb <= 127 /\ 0 <= lsb <= 127.
Proof. apply make_mts_tuple_returns. Qed.

(** X13: the encoder checks in this order: a semitone outside 0 to 127 is
    reported first, whatever the cents; then cents outside the semitone;
    only then, as an internal error, a fraction byte that does not fit. *)
Theorem encoder_checks_in_order (note_id step_offset : Z) (cents : A) :
  (~ 0 <= note_id + step_offset <= 127 ->
     make_mts_tuple note_id step_offset cents = Raise (Exception "semitone not in range"))
  /\ (0 <= note_id + step_offset <= 127 -> in_semitone cents = false ->
        make_mts_tuple note_id step_offset cents
        = Raise (Exception "cents offset not in range"))
  /\ (0 <= note_id + step_offset <= 127 -> in_semitone cents = true ->
        ~ (0 <= ffloor (midi_fraction cents) <= 127
           /\ 0 <= fround (fmul (fsub (midi_fraction cents)
                                      (of_int (ffloor (midi_fraction cents))))
                                (of_int 128)) <= 127) ->
        make_mts_tuple note_id step_offset cents
        = Raise (Exception "internal error: tuning offset data exceeded maximum MIDI value")).
Proof. exact (make_mts_tuple_raises note_id step_offset cents). Qed.

End EncoderExtras.

Section ExactEncoderExtras.

Local Open Scope Q_scope.

Lemma Qfloor_shift (x : Q) (k : Z) : Qfloor (x + inject_Z k) = (Qfloor x + k)%Z.
Proof.
  pose proof (Qfloor_le x) as Hlo. pose proof (Qlt_floor x) as Hhi.
  assert (Hb : (Qfloor x + k <= Qfloor (x + inject_Z k) < Qfloor x + k + 1)%Z).
  { apply Qfloor_between. rewrite !inject_Z_plus in *. lra. }
  lia.
Qed.

Lemma Qround_half_even_comp (x y : Q) :
  x == y -> Qround_half_even x = Qround_half_even y.
Proof.
  intro E. unfold Qround_half_even. rewrite (Qfloor_comp x y E).
  assert (Ec : (x - inject_Z (Qfloor y) ?= 1 # 2) = (y - inject_Z (Qfloor y) ?= 1 # 2))
    by (apply Qcompare_comp; [rewrite E; reflexivity | reflexivity]).
  rewrite Ec. reflexivity.
Qed.

(** Rounding commutes with adding an even integer. *)
Lemma Qround_half_even_shift (x : Q) (k : Z) :
  Z.even k = true ->
  Qround_half_even (x + inject_Z k) = (Qround_half_even x + k)%Z.
Proof.
  intro Hk. unfold Qround_half_even. rewrite Qfloor_shift.
  assert (Ec : (x + inject_Z k - inject_Z (Qfloor x + k) ?= 1 # 2)
               = (x - inject_Z (Qfloor x) ?= 1 # 2)).
  { apply Qcompare_comp; [|reflexivity]. rewrite inject_Z_plus. ring. }
  rewrite Ec. rewrite Z.even_add, Hk.
  destruct (x - inject_Z (Qfloor x) ?= 1 # 2); try lia.
  destruct (Z.even (Qfloor x)); simpl; lia.
Qed.




End ExactEncoderExtras.

(** ** The resolver: quotient and remainder *)

Section ExactResolverExtras.

Local Open Scope Q_scope.


Lemma semitones_away_octave (c : Q) (i : Z) :
  semitones_away (c + 1200) i = (semitones_away c i + 12)%Z.
Proof.
  unfold semitones_away. rewrite <- Qfloor_shift. apply Qfloor_comp.
  change (inject_Z 12) with 12. field.
Qed.



End ExactResolverExtras.

(** ** The dump: bytes *)

Section DumpExtras.

Local Open Scope string_scope.

(** X20: a number from 0 to 255 is dumped as two characters which, read as
    a hexadecimal numeral, give the number back. *)
Theorem to_hex_writes_a_byte (n : Z) :
  (0 <= n <= 255)%Z ->
  String.length (to_hex n) = 2%nat
  /\ HexString.Raw.to_N (to_hex n) 0 = Z.to_N n.
Proof.
  intro Hn.
  assert (Hall : forallb (fun k => Nat.eqb (String.length (to_hex k)) 2
                                   && N.eqb (HexString.Raw.to_N (to_hex k) 0) (Z.to_N k))
                         (Py.range 0 256) = true)
    by (vm_compute; reflexivity).
  rewrite forallb_forall in Hall.
  specialize (Hall n ltac:(apply PyFacts.range_In; lia)).
  apply andb_true_iff in Hall. destruct Hall as [H1 H2].
  apply Nat.eqb_eq in H1. apply N.eqb_eq in H2. split; assumption.
Qed.

Lemma length_append (a b : string) :
  String.length (a ++ b) = (String.length a + String.length b)%nat.
Proof. induction a as [|x a IH]; simpl; [reflexivity | rewrite IH; reflexivity]. Qed.

Lemma concat_pairs_length (l : list string) :
  l <> [] ->
  Forall (fun s => String.length s = 2%nat) l ->
  String.length (String.concat " " l) = (3 * List.length l - 1)%nat.
Proof.
  intros Hne Hall. induction Hall as [|s l Hs Hall IH]; [congruence|].
  destruct l as [|s' l].
  - simpl. rewrite Hs. reflexivity.
  - change (String.concat " " (s :: s' :: l))
      with (s ++ " " ++ String.concat " " (s' :: l)).
    rewrite !length_append, Hs, IH by discriminate.
    simpl List.length. simpl String.length. lia.
Qed.

End DumpExtras.

Section DumpLength.

Context {A : Type} `{Cents A}.

(** X21: for a device and a program from 0 to 255 and a range within 0 to
    255, every message the batcher returns is dumped, with blanks between
    the parts, as 8 + 4 * count pairs of hexadecimal digits: a string of
    3 * (8 + 4 * count) - 1 characters. *)
Theorem dump_has_one_pair_per_byte
        (fuel : nat) (names : list string) (offsets : list offset)
        (ref : reference_note) (note_range : Z * Z) (dev prog bottom top npm k : Z)
        (messages : list message) :
  0 <= dev <= 255 -> 0 <= prog <= 255 -> 0 <= bottom -> top <= 255 ->
  Py.index_of (note ref) names = Return k ->
  make_mts_messages_per_note_rt fuel names offsets ref note_range dev prog
                                [bottom; top] npm
  = Return messages ->
  Forall (fun m => Z.of_nat (String.length (hex_print_message " " m))
                   = 3 * (8 + 4 * count m) - 1)
         messages.
Proof.
  intros Hdev Hprog Hbot Htop Hk Hrun.
  pose proof (batcher_well_cut _ _ _ _ _ _ _ _ _ _ Hrun) as Hcut.
  assert (Hrows : Forall (fun m => Forall (fun row =>
                     Forall (fun x => 0 <= x <= 255) (tuple_numbers row)) (tuples m))
                         messages).
  { unfold make_mts_messages_per_note_rt in Hrun.
    destruct (tuning_tuples_of names offsets ref [bottom; top]) as [tt| |] eqn:Ett;
      cbn [bind] in Hrun; try discriminate.
    destruct (Py.len tt >? 127); [discriminate|].
    apply messages_while_content in Hrun. cbn [map List.concat app] in Hrun.
    unfold tuning_tuples_of in Ett. rewrite Hk in Ett. cbn [bind] in Ett.
    change (Py.index [bottom; top] 0) with (Return bottom) in Ett.
    change (Py.index [bottom; top] 1) with (Return top) in Ett. cbn [bind] in Ett.
    destruct (tuples_for_filter _ _ _ _ _ Ett) as [Hids Hall].
    apply Forall_forall. intros m Hm. apply Forall_forall. intros [[[n a] b] l] Hin.
    assert (Hin' : In (n, a, b, l) tt).
    { rewrite <- Hrun. apply in_concat. exists (tuples m). split; [|exact Hin].
      apply in_map. exact Hm. }
    rewrite Forall_forall in Hall. destruct (Hall _ Hin') as (s & d & _ & Hm').
    apply make_mts_tuple_returns in Hm'.
    destruct Hm' as (_ & _ & _ & _ & Ha & Hb & Hl).
    assert (Hn : In n (map note_of tt))
      by (apply in_map_iff; exists (n, a, b, l); split; [reflexivity | exact Hin']).
    rewrite Hids in Hn. apply filter_In in Hn. destruct Hn as [Hn _].
    apply PyFacts.range_In in Hn.
    cbn [tuple_numbers]. repeat constructor; lia. }
  apply Forall_forall. intros m Hm.
  rewrite Forall_forall in Hcut, Hrows.
  destruct (Hcut m Hm) as (Em & Hne & _ & Hmost). specialize (Hrows m Hm).
  rewrite hex_print_message_numbers by exact Hne.
  assert (Hc : count m = Py.len (tuples m)) by (rewrite Em; reflexivity).
  assert (Hnum : Forall (fun x => 0 <= x <= 255) (message_numbers m)).
  { rewrite Em, message_of_numbers.
    pose proof (PyFacts.len_nonneg (tuples m)).
    apply Forall_app. split; [repeat constructor; lia|].
    apply Forall_app. split; [|repeat constructor; lia].
    apply Forall_flat_map. exact Hrows. }
  rewrite concat_pairs_length.
  - rewrite length_map.
    assert (Hlen : Py.len (message_numbers m) = 8 + 4 * Py.len (tuples m)).
    { rewrite Em at 1. rewrite message_of_numbers, !PyFacts.len_app, tuple_numbers_length.
      change (Py.len [240; 127; dev; 8; 2; prog; Py.len (tuples m)]) with 7.
      change (Py.len [247]) with 1. lia. }
    unfold Py.len in Hlen, Hc. rewrite Hc. lia.
  - unfold message_numbers. discriminate.
  - apply Forall_map. eapply Forall_impl; [|exact Hnum].
    intros x Hx. apply to_hex_byte. exact Hx.
Qed.

End DumpLength.

(** ** Reading a step *)

Section ReadingSteps.

Local Open Scope string_scope.

Lemma string_of_snoc (l : list ascii) (c : ascii) (a : string) :
  string_of_list_ascii (l ++ [c]) ++ a = string_of_list_ascii l ++ String c a.
Proof. induction l as [|x l IH]; simpl; [reflexivity | rewrite IH; reflexivity]. Qed.

Lemma replace_slash_plain (a : string) : plain a = true -> replace_slash a = a.
Proof.
  induction a as [|c a IH]; intro Hp; [reflexivity|].
  cbn [plain] in Hp. apply andb_true_iff in Hp. destruct Hp as [Hc Hp].
  apply andb_true_iff in Hc. destruct Hc as [_ Hc]. apply negb_true_iff in Hc.
  cbn [replace_slash]. rewrite Hc, IH by exact Hp. reflexivity.
Qed.

Lemma replace_slash_app (a b : string) :
  replace_slash (a ++ b) = replace_slash a ++ replace_slash b.
Proof. induction a as [|c a IH]; simpl; [reflexivity | rewrite IH; reflexivity]. Qed.

Lemma split_colon_plain (a : string) :
  forall cur, plain a = true ->
    split_colon a cur = [string_of_list_ascii (rev cur) ++ a].
Proof.
  induction a as [|c a IH]; intros cur Hp.
  - cbn [split_colon]. f_equal. clear.
    induction (string_of_list_ascii (rev cur)) as [|x s IH]; simpl;
      [reflexivity | rewrite <- IH; reflexivity].
  - cbn [plain] in Hp. apply andb_true_iff in Hp. destruct Hp as [Hc Hp].
    apply andb_true_iff in Hc. destruct Hc as [Hc _]. apply negb_true_iff in Hc.
    cbn [split_colon]. rewrite Hc, IH by exact Hp.
    cbn [rev]. rewrite string_of_snoc. reflexivity.
Qed.

Lemma split_colon_piece (a b : string) :
  forall cur, plain a = true ->
    split_colon (a ++ String ":" b) cur
    = (string_of_list_ascii (rev cur) ++ a) :: split_colon b [].
Proof.
  induction a as [|c a IH]; intros cur Hp.
  - cbn [append split_colon]. change (Ascii.eqb ":" ":") with true. cbv iota.
    f_equal. clear.
    induction (string_of_list_ascii (rev cur)) as [|x s IH]; simpl;
      [reflexivity | rewrite <- IH; reflexivity].
  - cbn [plain] in Hp. apply andb_true_iff in Hp. destruct Hp as [Hc Hp].
    apply andb_true_iff in Hc. destruct Hc as [Hc _]. apply negb_true_iff in Hc.
    cbn [append split_colon]. rewrite Hc, IH by exact Hp.
    cbn [rev]. rewrite string_of_snoc. reflexivity.
Qed.

Lemma split_colon_nonempty (s : string) : forall cur, split_colon s cur <> [].
Proof.
  induction s as [|c s IH]; intro cur; cbn [split_colon]; [discriminate|].
  destruct (Ascii.eqb c ":"); [discriminate | apply IH].
Qed.

Context {A : Type} `{Cents A}.
Variable float_of_string : string -> outcome A.
Variable divide : A -> A -> outcome A.

(** X22: a step whose text before the first [:] or [/] is [x] is read as
    unset, whatever follows, and nothing of it is read as a number. *)
Theorem unset_step_is_read_first (rest : string) :
  ratio_to_float float_of_string divide "x" = Return None
  /\ ratio_to_float float_of_string divide ("x:" ++ rest) = Return None
  /\ ratio_to_float float_of_string divide ("x/" ++ rest) = Return None.
Proof.
  unfold ratio_to_float. repeat split; reflexivity.
Qed.

(** X23: a text without separator is read as a number; two such texts
    joined by [:] or by [/], the first not being [x], are read as the
    quotient of the two numbers, the numerator being read first. *)
Theorem number_or_ratio_is_read (num denom : string) :
  plain num = true -> plain denom = true -> num <> "x" ->
  ratio_to_float float_of_string divide num
  = (res <- float_of_string num ;; Return (Some res))
  /\ ratio_to_float float_of_string divide (num ++ ":" ++ denom)
     = (n <- float_of_string num ;; d <- float_of_string denom ;;
        res <- divide n d ;; Return (Some res))
  /\ ratio_to_float float_of_string divide (num ++ "/" ++ denom)
     = ratio_to_float float_of_string divide (num ++ ":" ++ denom).
Proof.
  intros Hn Hd Hx. apply String.eqb_neq in Hx.
  assert (E2 : split_colon (replace_slash (num ++ ":" ++ denom)) [] = [num; denom]).
  { rewrite replace_slash_app. cbn [append replace_slash].
    change (Ascii.eqb ":" "/") with false. cbv iota.
    rewrite !replace_slash_plain by assumption.
    rewrite split_colon_piece by exact Hn. rewrite split_colon_plain by exact Hd.
    reflexivity. }
  assert (E3 : split_colon (replace_slash (num ++ "/" ++ denom)) [] = [num; denom]).
  { rewrite replace_slash_app. cbn [append replace_slash].
    change (Ascii.eqb "/" "/") with true. cbv iota.
    rewrite !replace_slash_plain by assumption.
    rewrite split_colon_piece by exact Hn. rewrite split_colon_plain by exact Hd.
    reflexivity. }
  split; [|split].
  - unfold ratio_to_float. rewrite replace_slash_plain by exact Hn.
    rewrite split_colon_plain by exact Hn. cbn [rev string_of_list_ascii append].
    change (Py.index [num] 0) with (Return num). cbn [bind]. rewrite Hx. reflexivity.
  - unfold ratio_to_float. rewrite E2.
    change (Py.index [num; denom] 0) with (Return num).
    change (Py.index [num; denom] 1) with (Return denom).
    cbn [bind]. rewrite Hx. reflexivity.
  - unfold ratio_to_float. rewrite E2, E3.
    change (Py.index [num; denom] 0) with (Return num).
    change (Py.index [num; denom] 1) with (Return denom).
    cbn [bind]. rewrite Hx. reflexivity.
Qed.

(** X24: a text of three pieces or more whose first piece is not [x] is
    refused, with the text in the message, before any of it is read as a
    number. *)
Theorem three_pieces_are_refused (a b rest : string) :
  plain a = true -> plain b = true -> a <> "x" ->
  ratio_to_float float_of_string divide (a ++ ":" ++ b ++ ":" ++ rest)
  = Raise (Exception ((a ++ ":" ++ b ++ ":" ++ rest) ++ " is not a valid number or ratio")).
Proof.
  intros Ha Hb Hx. apply String.eqb_neq in Hx. unfold ratio_to_float.
  assert (E : exists p ps, split_colon (replace_slash (a ++ ":" ++ b ++ ":" ++ rest)) []
                           = a :: b :: p :: ps).
  { rewrite replace_slash_app. cbn [append replace_slash].
    change (Ascii.eqb ":" "/") with false. cbv iota.
    rewrite replace_slash_app. cbn [append replace_slash].
    change (Ascii.eqb ":" "/") with false. cbv iota.
    rewrite !replace_slash_plain by assumption.
    rewrite split_colon_piece by exact Ha. rewrite split_colon_piece by exact Hb.
    destruct (split_colon (replace_slash rest) []) as [|p ps] eqn:Es.
    - exfalso. exact (split_colon_nonempty _ _ Es).
    - exists p, ps. reflexivity. }
  destruct E as (p & ps & E). rewrite E.
  change (Py.index (a :: b :: p :: ps) 0) with (Return a). cbn [bind]. rewrite Hx.
  assert (H1 : (Py.len (a :: b :: p :: ps) =? 1)%Z = false)
    by (apply Z.eqb_neq; unfold Py.len; simpl List.length; lia).
  assert (H2 : (Py.len (a :: b :: p :: ps) =? 2)%Z = false)
    by (apply Z.eqb_neq; unfold Py.len; simpl List.length; lia).
  rewrite H1, H2. reflexivity.
Qed.

End ReadingSteps.

(** ** The resolver on any arithmetic *)

Section AnyArithmetic.

Context {A : Type} `{Cents A}.

Lemma resolve_while_returns_in_semitone (fuel : nat) (base_scale : list A) :
  forall st st',
    resolve_while fuel base_scale st = Return st' ->
    in_semitone (cents_offset st') = true.
Proof.
  induction fuel as [|fuel IH]; intros st st' Hrun; cbn [resolve_while] in Hrun.
  - destruct (in_semitone (cents_offset st)) eqn:E; [|discriminate].
    injection Hrun as <-. exact E.
  - destruct (in_semitone (cents_offset st)) eqn:E.
    + injection Hrun as <-. exact E.
    + destruct (resolve_body base_scale st) as [st1| |]; cbn [bind] in Hrun;
        try discriminate.
      exact (IH st1 st' Hrun).
Qed.

Lemma offsets_for_entries (fuel : nat) (base_scale : list A)
      (steps : list (Z * (option A * A))) :
  forall offsets,
    offsets_for fuel base_scale steps = Return offsets ->
    Forall2 (fun step o =>
               match fst (snd step), o with
               | None, None => True
               | Some _, Some (_, d) => in_semitone d = true
               | _, _ => False
               end) steps offsets.
Proof.
  induction steps as [|[i [[c|] b]] steps IH]; intros offsets Hrun;
    cbn [offsets_for] in Hrun.
  - injection Hrun as <-. constructor.
  - destruct (resolve fuel base_scale i c b) as [st| |] eqn:Er; cbn [bind] in Hrun;
      try discriminate.
    destruct (offsets_for fuel base_scale steps) as [rest| |]; cbn [bind] in Hrun;
      try discriminate.
    injection Hrun as <-. constructor; [|apply IH; reflexivity].
    cbn [fst snd]. exact (resolve_while_returns_in_semitone _ _ _ _ Er).
  - destruct (offsets_for fuel base_scale steps) as [rest| |]; cbn [bind] in Hrun;
      try discriminate.
    injection Hrun as <-. constructor; [exact I | apply IH; reflexivity].
Qed.

Lemma enumerate_from_nth {T : Type} (l : list T) :
  forall i n, nth_error (Py.enumerate_from i l) n
              = option_map (fun x => (i + Z.of_nat n, x)) (nth_error l n).
Proof.
  induction l as [|x l IH]; intros i n.
  - destruct n; reflexivity.
  - destruct n as [|n]; cbn [Py.enumerate_from nth_error option_map].
    + replace (i + Z.of_nat 0) with i by lia. reflexivity.
    + rewrite IH. replace (i + 1 + Z.of_nat n) with (i + Z.of_nat (S n)) by lia.
      reflexivity.
Qed.

(** X25: on any arithmetic and against any base scale, when the resolver
    returns a table it has an entry for each step that has a base entry,
    unset exactly where the step is unset, and the cents of every set entry
    pass the encoder's test of the cents: the encoder never raises
    "cents offset not in range" on an entry of the table. *)
Theorem resolved_table_feeds_the_encoder
        (fuel : nat) (scale : list (option A)) (base_scale : list A)
        (offsets : list offset) :
  offsets_from_another_scale fuel scale base_scale = Return offsets ->
  List.length offsets = Nat.min (List.length scale) (List.length base_scale)
  /\ (forall n o, nth_error offsets n = Some o ->
        (o = None <-> nth_error scale n = Some None)
        /\ forall s d note_id,
             o = Some (s, d) ->
             in_semitone d = true
             /\ make_mts_tuple note_id s d
                <> Raise (Exception "cents offset not in range")).
Proof.
  intro Hrun. unfold offsets_from_another_scale in Hrun.
  apply offsets_for_entries in Hrun.
  split.
  - apply eq_trans with (1 := eq_sym (Forall2_length Hrun)).
    assert (Hlen : forall (T : Type) (l : list T) i,
               List.length (Py.enumerate_from i l) = List.length l).
    { intros T l. induction l as [|x l IH]; intro i; simpl; [reflexivity|].
      rewrite IH. reflexivity. }
    rewrite Hlen. apply length_combine.
  - intros n o Hn.
    assert (Hstep : exists step,
               nth_error (Py.enumerate_from 0 (combine scale base_scale)) n = Some step
               /\ match fst (snd step), o with
                  | None, None => True
                  | Some _, Some (_, d) => in_semitone d = true
                  | _, _ => False
                  end).
    { clear - Hrun Hn. revert n Hn.
      induction Hrun as [|step o' steps offs Hhd Htl IH]; intros n Hn.
      - destruct n; discriminate.
      - destruct n as [|n].
        + injection Hn as <-. exists step. split; [reflexivity | exact Hhd].
        + apply IH. exact Hn. }
    destruct Hstep as (step & Hs & Hok).
    rewrite enumerate_from_nth in Hs.
    destruct (nth_error (combine scale base_scale) n) as [[c b]|] eqn:Ec;
      [|discriminate].
    injection Hs as <-. cbn [fst snd] in Hok.
    assert (Hc : nth_error scale n = Some c).
    { clear - Ec. revert base_scale n Ec.
      induction scale as [|x scale IH]; intros base_scale n Ec;
        [destruct n; discriminate|].
      destruct base_scale as [|y base_scale]; [destruct n; discriminate|].
      destruct n as [|n]; [injection Ec as <- _; reflexivity|].
      exact (IH base_scale n Ec). }
    split.
    + split.
      * intros ->. destruct c; [contradiction | exact Hc].
      * intro Hnone. rewrite Hnone in Hc. injection Hc as <-.
        destruct o as [[s d]|]; [contradiction | reflexivity].
    + intros s d note_id ->. destruct c as [c|]; [|contradiction].
      split; [exact Hok|].
      unfold make_mts_tuple. rewrite Hok. cbn [negb].
      repeat match goal with |- context [if ?b then _ else _] => destruct b end;
        discriminate.
Qed.

End AnyArithmetic.

Section MainStartingNote.

Context {A : Type} `{Cents A}.

Lemma index_of_finds (x : string) (l : list string) :
  In x l -> exists k, Py.index_of x l = Return k.
Proof.
  induction l as [|y l IH]; intro Hin; [destruct Hin|].
  cbn [Py.index_of]. destruct (String.eqb y x) eqn:E; [eexists; reflexivity|].
  apply String.eqb_neq in E. destruct Hin as [Hy|Hin]; [congruence|].
  destruct (IH Hin) as (k & Hk). rewrite Hk. eexists. reflexivity.
Qed.

(** X26: with a limit of two or more, a starting note that is not one of
    the twelve names, read in upper case, stops [main] with [ValueError],
    whatever the scale, and one that is, in either case of letters, does
    not. *)
Theorem unknown_starting_note_is_a_value_error (fuel : nat) (args : arguments) :
  2 <= notes_per_message args ->
  (~ In (upper (starting_note args)) notes ->
     main_messages fuel args = Raise ValueError)
  /\ (In (upper (starting_note args)) notes ->
        exists names, rotate_notes notes (starting_note args) = Return names).
Proof.
  intro Hn. split.
  - intro Hnot. unfold main_messages.
    assert (Hlen : Py.len (match tuning_range args with
                           | None => [0; 127]
                           | Some (bottom, top) => [bottom; top]
                           end) = 2)
      by (destruct (tuning_range args) as [[b t]|]; reflexivity).
    rewrite Hlen.
    destruct (2 >? notes_per_message args) eqn:E.
    { rewrite Z.gtb_ltb in E. apply Z.ltb_lt in E. lia. }
    unfold rotate_notes. rewrite index_of_raises by exact Hnot. reflexivity.
  - intro Hin. unfold rotate_notes.
    destruct (index_of_finds _ _ Hin) as (k & Hk). rewrite Hk. eexists. reflexivity.
Qed.

End MainStartingNote.

(** ** The further statements at concrete inputs *)

Lemma batcher_keeps_every_tuple_witness :
  exists tuning_tuples,
    tuning_tuples_of notes equal_temperament_offsets midi_reference_note [60; 62]
    = Return tuning_tuples
    /\ List.concat (map tuples [message_of 127 0 [(60, 60, 0, 0); (61, 61, 0, 0);
                                                  (62, 62, 0, 0)]])
       = tuning_tuples
    /\ Py.len tuning_tuples <= 127.
Proof.
  apply (batcher_keeps_every_tuple (A:=Q) 1 notes equal_temperament_offsets
           midi_reference_note midi_note_range 127 0 [60; 62] 127).
  reflexivity.
Defined.

Lemma batcher_cuts_into_chunks_witness :
  exists messages,
    make_mts_messages_per_note_rt 5 notes equal_temperament_offsets midi_reference_note
                                  midi_note_range 127 0 [60; 64] 2
    = Return messages
    /\ Py.len messages = 3.
Proof.
  destruct (batcher_cuts_into_chunks (A:=Q) 5 notes equal_temperament_offsets
              midi_reference_note midi_note_range 127 0 [60; 64] 2
              (map (fun n => (n, n, 0, 0)) (Py.range 60 65)))
    as (messages & Hrun & Hlen & _).
  - vm_compute. reflexivity.
  - vm_compute. discriminate.
  - lia.
  - vm_compute. lia.
  - exists messages. split; [exact Hrun | exact Hlen].
Defined.

Lemma collected_tuples_are_the_encodable_notes_witness :
  map note_of [(60, 60, 0, 0); (61, 61, 0, 0); (62, 62, 0, 0)]
  = filter (encodes equal_temperament_offsets ((60 + 0) mod 12) 12) (Py.range 60 (62 + 1)).
Proof.
  apply (collected_tuples_are_the_encodable_notes (A:=Q) notes equal_temperament_offsets
           midi_reference_note 60 62 0 [(60, 60, 0, 0); (61, 61, 0, 0); (62, 62, 0, 0)]).
  - reflexivity.
  - reflexivity.
Defined.

Lemma nothing_to_tune_no_message_witness :
  make_mts_messages_per_note_rt 0 notes equal_temperament_offsets midi_reference_note
                                midi_note_range 127 0 [62; 60] 0
  = Return [].
Proof.
  apply (nothing_to_tune_no_message (A:=Q) 0 notes equal_temperament_offsets
           midi_reference_note midi_note_range 127 0 62 60 0 0).
  - reflexivity.
  - left. lia.
Defined.

Lemma byte_limit_is_kept_witness :
  exists messages,
    main_messages 5 (mkArguments (@equal_temperament_scale Q _) "C" false 127 0 false
                                 (Some (60, 64)) 127 (Some 16))
    = Return messages
    /\ Forall (fun m => Py.len (message_numbers m) = 8 + 4 * count m
                        /\ Py.len (message_numbers m) <= 16)
              messages.
Proof.
  eexists. split; [reflexivity|].
  apply (byte_limit_is_kept 5 (mkArguments (@equal_temperament_scale Q _) "C" false 127 0
                                           false (Some (60, 64)) 127 (Some 16)) 16).
  - reflexivity.
  - reflexivity.
Defined.

Lemma limit_below_two_is_refused_witness :
  main_messages 0 (default_arguments (@equal_temperament_scale Q _) (Some (60, 60)) 1)
  = Raise (Exception "Too many notes per message for a given range. Try decreasing.")
  /\ main 0 (default_arguments (@equal_temperament_scale Q _) (Some (60, 60)) 1)
     = Raise (Exception "Too many notes per message for a given range. Try decreasing.").
Proof.
  apply (limit_below_two_is_refused 0
           (default_arguments (@equal_temperament_scale Q _) (Some (60, 60)) 1)).
  simpl. lia.
Defined.

Lemma rotate_notes_turns_the_list_witness :
  exists i : nat,
    nth_error notes i = Some (upper "d")
    /\ Permutation notes notes_from_d
    /\ hd_error notes_from_d = Some (upper "d").
Proof.
  destruct (proj1 (rotate_notes_turns_the_list notes "d") notes_from_d eq_refl)
    as (i & Hi & _ & _ & Hp & Hh).
  exists i. split; [exact Hi|]. split; [exact Hp | exact Hh].
Defined.

Lemma scale_steps_follow_note_names_witness :
  exists k,
    Py.index_of (note midi_reference_note) notes_from_d = Return k
    /\ Py.len notes_from_d = 12
    /\ forall n : Z,
         nth_error notes_from_d
           (Z.to_nat ((n + (ID midi_reference_note + k) mod Py.len notes_from_d)
                      mod Py.len notes_from_d))
         = nth_error notes (Z.to_nat (n mod 12)).
Proof.
  apply (scale_steps_follow_note_names "d" notes_from_d). reflexivity.
Defined.

Lemma stepwise_is_the_running_sum_witness :
  stepwise_from_root (Some 0%Q :: map Some [100%Q; 100%Q])
  = Return (map Some (0%Q :: running_sums 0%Q [100%Q; 100%Q])).
Proof.
  exact (proj1 (stepwise_is_the_running_sum 0%Q [100%Q; 100%Q])).
Defined.

Lemma stepwise_unset_step_is_a_name_error_witness :
  stepwise_from_root (Some 0%Q :: [Some 100%Q; None; Some 100%Q])
  = Raise (NameError "new_scape").
Proof.
  apply (stepwise_unset_step_is_a_name_error 0%Q [Some 100%Q; None; Some 100%Q]).
  right. left. reflexivity.
Defined.

Lemma encoder_returns_data_bytes_witness :
  make_mts_tuple 60 (-1) 50%Q = Return (59, 64, 0).
Proof.
  apply (proj2 (encoder_returns_data_bytes 60 (-1) 50%Q 59 64 0)).
  repeat split; try reflexivity; lia.
Defined.

Lemma encoder_checks_in_order_witness :
  make_mts_tuple 127 1 0%Q = Raise (Exception "semitone not in range")
  /\ make_mts_tuple 60 0 100%Q = Raise (Exception "cents offset not in range").
Proof.
  destruct (encoder_checks_in_order 127 1 0%Q) as (H1 & _ & _).
  destruct (encoder_checks_in_order 60 0 100%Q) as (_ & H2 & _).
  split; [apply H1; lia | apply H2; [lia | reflexivity]].
Defined.







Lemma to_hex_writes_a_byte_witness :
  String.length (to_hex 60) = 2%nat /\ HexString.Raw.to_N (to_hex 60) 0 = Z.to_N 60.
Proof. apply (to_hex_writes_a_byte 60). lia. Defined.

Lemma dump_has_one_pair_per_byte_witness :
  Forall (fun m => Z.of_nat (String.length (hex_print_message " " m))
                   = 3 * (8 + 4 * count m) - 1)
         [message_of 127 0 [(60, 60, 0, 0); (61, 61, 0, 0); (62, 62, 0, 0)]].
Proof.
  apply (dump_has_one_pair_per_byte (A:=Q) 1 notes equal_temperament_offsets
           midi_reference_note midi_note_range 127 0 60 62 127 0); try lia.
  - reflexivity.
  - reflexivity.
Defined.

Lemma number_or_ratio_is_read_witness :
  ratio_to_float whole_number_of_string exact_quotient "3/2"
  = ratio_to_float whole_number_of_string exact_quotient "3:2".
Proof.
  apply (number_or_ratio_is_read whole_number_of_string exact_quotient "3" "2").
  - reflexivity.
  - reflexivity.
  - discriminate.
Defined.

Lemma three_pieces_are_refused_witness :
  ratio_to_float whole_number_of_string exact_quotient "1:2:3"
  = Raise (Exception "1:2:3 is not a valid number or ratio").
Proof.
  apply (three_pieces_are_refused whole_number_of_string exact_quotient "1" "2" "3").
  - reflexivity.
  - reflexivity.
  - discriminate.
Defined.

Lemma resolved_table_feeds_the_encoder_witness :
  List.length (repeat (Some (0, 0%float)) 12)
  = Nat.min (List.length (@equal_temperament_scale float _))
            (List.length (@eqtemp12_cents float _)).
Proof.
  apply (resolved_table_feeds_the_encoder 0 (@equal_temperament_scale float _)
           (@eqtemp12_cents float _) (repeat (Some (0, 0%float)) 12)).
  reflexivity.
Defined.

Lemma unknown_starting_note_is_a_value_error_witness :
  main_messages 0 (mkArguments (@equal_temperament_scale Q _) "H" false 127 0 false
                               None 127 None)
  = Raise ValueError.
Proof.
  apply (unknown_starting_note_is_a_value_error 0
           (mkArguments (@equal_temperament_scale Q _) "H" false 127 0 false None 127 None)).
  - simpl. lia.
  - simpl. intros [E|[E|[E|[E|[E|[E|[E|[E|[E|[E|[E|[E|[]]]]]]]]]]]]]; discriminate.
Defined.
